(** * Godel: the scantron grader (scantron/types.py), embedded in Rocq

    Python values are modelled as follows.
    - [str]: [string]; a character is an [ascii], read as a code point in
      U+0000..U+00FF, so the development covers the strings whose characters
      lie in that range.
    - [float]: the primitive binary64 floats of Rocq.
    - [int]: [Z].
    - an exception: a constructor of [exn]; a call that can raise returns
      a [result].
    - [set] of bubbles: [gset Bubble.t]. *)

From Stdlib Require Import ZArith String Ascii List Floats.
From stdpp Require Import base gmap sets list strings sorting.

Local Open Scope string_scope.
Local Open Scope Z_scope.

(** ** Exceptions *)

Inductive exn : Set :=
| ValueError
| IndexError
| ZeroDivisionError
| AssertionError
| OverflowError.

Inductive result (T : Type) : Type :=
| Ok (v : T)
| Raise (e : exn).
Arguments Ok {T} v.
Arguments Raise {T} e.

#[global] Instance result_ret : MRet result := fun _ v => Ok v.
#[global] Instance result_bind : MBind result := fun _ _ f m =>
  match m with
  | Ok v => f v
  | Raise e => Raise e
  end.
#[global] Instance result_fmap : FMap result := fun _ _ f m =>
  match m with
  | Ok v => Ok (f v)
  | Raise e => Raise e
  end.

(** [assert cond], with assertions enabled (no [-O]). *)
Definition py_assert (cond : bool) : result unit :=
  if cond then Ok tt else Raise AssertionError.

(** [try: body except ValueError: raise ValueError(msg)]: the only handler of
    the program; another exception passes through it. *)
Definition reraise_ValueError {T} (body : result T) : result T :=
  match body with
  | Raise ValueError => Raise ValueError
  | other => other
  end.

(** ** Built-in string operations *)

Module Str.

(** The characters of a string, in order. *)
Definition chars (s : string) : list ascii := list_ascii_of_string s.
Definition of_chars (cs : list ascii) : string := string_of_list_ascii cs.
Definition of_char (c : ascii) : string := String c EmptyString.

(** The value of a decimal digit (category Nd, what [\d] and [int] accept):
    the characters U+0030..U+0039. *)
Definition digit_value (c : ascii) : option Z :=
  let code := Z.of_nat (nat_of_ascii c) in
  if (48 <=? code) && (code <=? 57) then Some (code - 48) else None.

Definition is_decimal (c : ascii) : bool :=
  match digit_value c with Some _ => true | None => false end.

(** Characters [c] with [c.isdigit()]: the decimal digits and the
    superscripts U+00B2, U+00B3 and U+00B9. *)
Definition char_isdigit (c : ascii) : bool :=
  is_decimal c ||
  match nat_of_ascii c with
  | 178%nat | 179%nat | 185%nat => true
  | _ => false
  end.

(** [s.isdigit()]: every character is a digit and there is at least one. *)
Definition isdigit (s : string) : bool :=
  match chars s with
  | [] => false
  | cs => forallb char_isdigit cs
  end.

(** Characters [c] with [c.isspace()]. *)
Definition char_isspace (c : ascii) : bool :=
  match nat_of_ascii c with
  | 9%nat | 10%nat | 11%nat | 12%nat | 13%nat
  | 28%nat | 29%nat | 30%nat | 31%nat | 32%nat
  | 133%nat | 160%nat => true
  | _ => false
  end.

Fixpoint lstrip_chars (cs : list ascii) : list ascii :=
  match cs with
  | c :: cs' => if char_isspace c then lstrip_chars cs' else cs
  | [] => []
  end.

Definition strip_chars (cs : list ascii) : list ascii :=
  rev (lstrip_chars (rev (lstrip_chars cs))).

(** [s.strip()]. *)
Definition strip (s : string) : string := of_chars (strip_chars (chars s)).

(** [s.split()]: the maximal runs of characters that are not whitespace.
    [cur] holds the run being read, reversed. *)
Fixpoint split_ws_go (cur : list ascii) (cs : list ascii) : list string :=
  match cs with
  | [] => match cur with [] => [] | _ => [of_chars (rev cur)] end
  | c :: cs' =>
      if char_isspace c then
        match cur with
        | [] => split_ws_go [] cs'
        | _ => of_chars (rev cur) :: split_ws_go [] cs'
        end
      else split_ws_go (c :: cur) cs'
  end.

Definition split (s : string) : list string := split_ws_go [] (chars s).

(** [s.split(sep)] for a one-character separator: empty pieces are kept. *)
Fixpoint split_on_go (sep : ascii) (cur : list ascii) (cs : list ascii)
  : list string :=
  match cs with
  | [] => [of_chars (rev cur)]
  | c :: cs' =>
      if Ascii.eqb c sep then of_chars (rev cur) :: split_on_go sep [] cs'
      else split_on_go sep (c :: cur) cs'
  end.

Definition split_on (sep : ascii) (s : string) : list string :=
  split_on_go sep [] (chars s).

(** [sep.join(parts)]. *)
Fixpoint join (sep : string) (parts : list string) : string :=
  match parts with
  | [] => ""
  | [p] => p
  | p :: rest => p ++ sep ++ join sep rest
  end.

(** [s.startswith(c)] for a one-character prefix. *)
Definition startswith (c : ascii) (s : string) : bool :=
  match s with
  | String c' _ => Ascii.eqb c' c
  | EmptyString => false
  end.

(** [s[1:]]. *)
Definition tail (s : string) : string :=
  match s with
  | String _ s' => s'
  | EmptyString => ""
  end.

(** A run of digits in which single underscores may separate digits:
    the digit part of an [int] or [float] literal.  [acc] is the value read
    so far, [n] the number of digits read, [prev] tells whether the last
    character was a digit. *)
Fixpoint digit_part (acc : Z) (n : nat) (prev : bool) (cs : list ascii)
  : option (Z * nat) :=
  match cs with
  | [] => if prev then Some (acc, n) else None
  | c :: cs' =>
      match digit_value c with
      | Some d => digit_part (10 * acc + d) (S n) true cs'
      | None =>
          if Ascii.eqb c "_" && prev then digit_part acc n false cs'
          else None
      end
  end.

(** An optional sign in front of a literal. *)
Definition split_sign (cs : list ascii) : bool * list ascii :=
  match cs with
  | "-"%char :: cs' => (true, cs')
  | "+"%char :: cs' => (false, cs')
  | _ => (false, cs)
  end.

(** The whitespace that [int] and [float] skip around a literal: the ASCII
    whitespace U+0009..U+000D and U+0020, and U+0085 and U+00A0, which they
    read as spaces.  The separators U+001C..U+001F, whitespace for [strip]
    and [split], are not skipped: [int] raises on them. *)
Definition char_literal_space (c : ascii) : bool :=
  match nat_of_ascii c with
  | 9%nat | 10%nat | 11%nat | 12%nat | 13%nat | 32%nat
  | 133%nat | 160%nat => true
  | _ => false
  end.

Fixpoint lskip_literal_space (cs : list ascii) : list ascii :=
  match cs with
  | c :: cs' => if char_literal_space c then lskip_literal_space cs' else cs
  | [] => []
  end.

(** The literal between the whitespace that surrounds it. *)
Definition literal_chars (cs : list ascii) : list ascii :=
  rev (lskip_literal_space (rev (lskip_literal_space cs))).

(** [int(s)], base ten: surrounding whitespace, an optional sign, then a
    digit part.  The interpreter's limit on the number of digits (4300 by
    default, from 3.11 on) is left out. *)
Definition int (s : string) : result Z :=
  let '(neg, body) := split_sign (literal_chars (chars s)) in
  match digit_part 0 0 false body with
  | Some (v, _) => Ok (if neg then - v else v)
  | None => Raise ValueError
  end.

(** The characters before the first one that satisfies [p], and the
    characters after it when there is one. *)
Fixpoint break_at (p : ascii -> bool) (cs : list ascii)
  : list ascii * option (list ascii) :=
  match cs with
  | [] => ([], None)
  | c :: cs' =>
      if p c then ([], Some cs')
      else let '(before, after) := break_at p cs' in (c :: before, after)
  end.

(** ASCII lower case, for the case-insensitive literals of [float]. *)
Definition lower (c : ascii) : ascii :=
  let n := nat_of_ascii c in
  if (65 <=? n)%nat && (n <=? 90)%nat then ascii_of_nat (n + 32) else c.

(** The nearest binary64 value to an integer (ties to even). *)
Definition float_of_Z (z : Z) : float :=
  SF2Prim (binary_normalize prec emax z 0 false).

(** The nearest binary64 value to [m * 10 ^ e10], for [0 <= m]. *)
Definition float_of_decimal (m e10 : Z) : float :=
  match m with
  | Zpos p =>
      if 0 <=? e10 then float_of_Z (m * 10 ^ e10)
      else SF2Prim (SFdiv prec emax (S754_finite false p 0)
                      (S754_finite false (Z.to_pos (10 ^ (- e10))) 0))
  | _ => 0%float
  end.

(** [number ::= [digitpart] "." digitpart | digitpart ["."]]: the digits
    read as an integer, and how many of them follow the point. *)
Definition float_number (cs : list ascii) : option (Z * Z) :=
  match break_at (Ascii.eqb ".") cs with
  | (ip, None) =>
      '(m, _) ← digit_part 0 0 false ip; Some (m, 0)
  | (ip, Some fp) =>
      match ip, fp with
      | [], [] => None
      | _, [] => '(m, _) ← digit_part 0 0 false ip; Some (m, 0)
      | [], _ =>
          '(m, n) ← digit_part 0 0 false fp; Some (m, Z.of_nat n)
      | _, _ =>
          '(a, _) ← digit_part 0 0 false ip;
          '(b, n) ← digit_part 0 0 false fp;
          Some (a * 10 ^ Z.of_nat n + b, Z.of_nat n)
      end
  end.

(** [exponent ::= ("e" | "E") [sign] digitpart], after its letter. *)
Definition float_exponent (cs : list ascii) : option Z :=
  let '(neg, body) := split_sign cs in
  '(v, _) ← digit_part 0 0 false body;
  Some (if neg then - v else v).

(** [float(s)]: surrounding whitespace as for [int], an optional sign, then
    [inf], [infinity], [nan] or a decimal number. *)
Definition float (s : string) : result float :=
  let '(neg, body) := split_sign (literal_chars (chars s)) in
  let signed (x : float) : float := if neg then (- x)%float else x in
  let word := of_chars (map lower body) in
  if String.eqb word "inf" || String.eqb word "infinity" then
    Ok (signed infinity)
  else if String.eqb word "nan" then Ok nan
  else
    let '(num, exp) := break_at (fun c => Ascii.eqb (lower c) "e") body in
    match float_number num, exp with
    | Some (m, nfrac), None =>
        Ok (signed (float_of_decimal m (- nfrac)))
    | Some (m, nfrac), Some ecs =>
        match float_exponent ecs with
        | Some e => Ok (signed (float_of_decimal m (e - nfrac)))
        | None => Raise ValueError
        end
    | None, _ => Raise ValueError
    end.

End Str.

(** ** Bubble *)

Module Bubble.

Inductive t : Set := A | B | C | D | E.

#[global] Instance eq_dec : EqDecision t.
Proof. solve_decision. Defined.

(** The value of a member: its letter. *)
Definition value (b : t) : ascii :=
  match b with
  | A => "A" | B => "B" | C => "C" | D => "D" | E => "E"
  end%char.

Definition of_letter (c : ascii) : option t :=
  match c with
  | "A" => Some A | "B" => Some B | "C" => Some C | "D" => Some D
  | "E" => Some E
  | _ => None
  end%char.

#[global] Instance countable : Countable t.
Proof.
  refine (inj_countable' value
            (fun c => match of_letter c with Some b => b | None => A end) _).
  intros []; reflexivity.
Defined.

(** [Bubble(v)]: the member whose value is [v]. *)
Definition of_value (v : string) : result t :=
  match v with
  | String c EmptyString =>
      match of_letter c with
      | Some b => Ok b
      | None => Raise ValueError
      end
  | _ => Raise ValueError
  end.

(** [Bubble(chr(i))].  [chr] raises [ValueError] outside [range(0x110000)],
    and [OverflowError] when [i] does not fit a C [int] (CPython up to 3.12);
    a character above U+00FF is the value of no member. *)
Definition of_chr (i : Z) : result t :=
  if (i <? - 2 ^ 31) || (2 ^ 31 <=? i) then Raise OverflowError
  else if (i <? 0) || (1114112 <=? i) then Raise ValueError
  else if 256 <=? i then Raise ValueError
  else of_value (Str.of_char (ascii_of_nat (Z.to_nat i))).

Definition ord_A : Z := 65.

Definition parse (value : string) : result t :=
  if Str.isdigit value then
    reraise_ValueError (n ← Str.int value; of_chr (ord_A + (n - 1)))
  else of_value value.

(** The order of [sorted(_, key=lambda b: b.value)]. *)
Definition le (a b : t) : Prop :=
  (nat_of_ascii (value a) <= nat_of_ascii (value b))%nat.

#[global] Instance le_dec : RelDecision le.
Proof. intros a b. unfold le. apply _. Defined.

End Bubble.

Definition BUBBLES : list Bubble.t :=
  [Bubble.A; Bubble.B; Bubble.C; Bubble.D; Bubble.E].

(** [set(l)], and [list(s)] for a set [s]: the order in which a set is
    iterated is not fixed by the language; [list_of_set] is one such order. *)
Definition set_of_list (l : list Bubble.t) : gset Bubble.t := list_to_set l.
Definition list_of_set (s : gset Bubble.t) : list Bubble.t := elements s.

(** ** Response *)

Module Response.

Record t : Set := mk { bubbles : list Bubble.t }.

(** [sorted(choices, key=lambda b: b.value)]. *)
Definition sorted (choices : list Bubble.t) : list Bubble.t :=
  merge_sort Bubble.le choices.

(** [Response(choices)]. *)
Definition new (choices : list Bubble.t) : t :=
  {| bubbles := sorted choices |}.

(** The characters that [re.sub(r'[^\dA-E]', '', value)] keeps. *)
Definition kept (c : ascii) : bool :=
  Str.is_decimal c ||
  match Bubble.of_letter c with Some _ => true | None => false end.

Definition parse (value : string) : result t :=
  bs ← mapM (fun num => Bubble.parse (Str.of_char num))
            (filter (fun c => kept c = true) (Str.chars value));
  Ok (new (list_of_set (set_of_list bs))).

Definition bubble_set (r : t) : gset Bubble.t := set_of_list (bubbles r).

End Response.


(** ** Built-in sequence operations *)

Module Seq.

(** [l[i]]: a negative index counts from the end. *)
Definition getitem {T} (l : list T) (i : Z) : result T :=
  let len := Z.of_nat (length l) in
  let j := if i <? 0 then i + len else i in
  if (j <? 0) || (len <=? j) then Raise IndexError
  else match l !! Z.to_nat j with
       | Some x => Ok x
       | None => Raise IndexError
       end.

(** A slice bound, brought into [0 .. len]. *)
Definition clamp (len i : Z) : Z :=
  if i <? 0 then Z.max 0 (i + len) else Z.min i len.

(** [l[start:stop]]: never raises; bounds beyond the list are clamped. *)
Definition slice {T} (l : list T) (start stop : Z) : list T :=
  let len := Z.of_nat (length l) in
  let a := clamp len start in
  let b := clamp len stop in
  take (Z.to_nat (b - a)) (drop (Z.to_nat a) l).

End Seq.

(** ** Numbers: the [int] and [float] values the grading functions return *)

Module Num.

Inductive t : Set :=
| Int (z : Z)
| Float (f : float).

(** The float a number converts to in mixed arithmetic. *)
Definition to_float (x : t) : float :=
  match x with
  | Int z => Str.float_of_Z z
  | Float f => f
  end.

(** [x < y]; the integers compared with floats here are exact floats. *)
Definition ltb (x y : t) : bool :=
  match x, y with
  | Int a, Int b => a <? b
  | _, _ => PrimFloat.ltb (to_float x) (to_float y)
  end.

Definition leb (x y : t) : bool :=
  match x, y with
  | Int a, Int b => a <=? b
  | _, _ => PrimFloat.leb (to_float x) (to_float y)
  end.

(** [x == y]. *)
Definition eqb (x y : t) : bool :=
  match x, y with
  | Int a, Int b => a =? b
  | _, _ => PrimFloat.eqb (to_float x) (to_float y)
  end.

Definition add (x y : t) : t :=
  match x, y with
  | Int a, Int b => Int (a + b)
  | _, _ => Float (to_float x + to_float y)
  end.

(** [x * y] for a float [x]. *)
Definition fmul (x : float) (y : t) : t := Float (x * to_float y).

(** [x / y] for a float [x]. *)
Definition fdiv (x : float) (y : t) : result t :=
  if eqb y (Int 0) then Raise ZeroDivisionError
  else Ok (Float (x / to_float y)).

(** [max(x, y)]: the first argument unless the second is greater. *)
Definition max2 (x y : t) : t := if ltb x y then y else x.

(** [max(l)]: the first greatest item; an empty list raises. *)
Definition max (l : list t) : result t :=
  match l with
  | [] => Raise ValueError
  | x :: l' => Ok (fold_left max2 l' x)
  end.

(** [sum(l)]: the items added from left to right to the integer 0 (from
    3.12 on CPython adds floats with a compensated sum, which can differ in
    the last bit). *)
Definition sum (l : list t) : t := fold_left add l (Int 0).

End Num.

(** ** Student *)

Module Student.

Record t : Set := mk { name : string; sid : string }.

(** [Student(name, sid)]. *)
Definition new (name sid : string) : t :=
  {| name := Str.join " " (Str.split (Str.strip name));
     sid := Str.strip sid |}.

(** [SID_REGEX.match(sid) is not None] for [^\d{8}$]: eight digits, then
    the end of the string or a last newline. *)
Definition sid_matches (sid : string) : bool :=
  let cs := Str.chars sid in
  forallb Str.is_decimal (take 8 cs) && (length (take 8 cs) =? 8)%nat &&
  match drop 8 cs with
  | [] => true
  | [c] => Ascii.eqb c (ascii_of_nat 10)
  | _ => false
  end.

Definition is_valid (self : t) : bool :=
  (0 <? String.length (name self))%nat && sid_matches (sid self).

End Student.

(** ** Scantron *)

Module Scantron.

Record t : Set := mk {
  student : Student.t;
  form : Bubble.t;
  responses : list Response.t
}.

Definition parse (row : list string) : result t :=
  field3 ← Seq.getitem row 3;
  num_questions ← Str.int field3;
  name ← Seq.getitem row 1;
  sid ← Seq.getitem row 2;
  let student := Student.new name sid in
  field0 ← Seq.getitem row 0;
  form ← Bubble.parse field0;
  responses ← mapM Response.parse (Seq.slice row 4 (4 + num_questions));
  Ok {| student := student; form := form; responses := responses |}.

End Scantron.

(** ** RubricItem *)

Module RubricItem.

Record t : Set := mk {
  correct_response : Response.t;
  partial_credit : bool
}.

Definition parse (value : string) : result t :=
  let is_partial := Str.startswith "P" value in
  let response_str := if is_partial then Str.tail value else value in
  correct ← Response.parse response_str;
  Ok {| correct_response := correct; partial_credit := is_partial |}.

Definition grade (self : t) (response : Response.t) : result Num.t :=
  let correct_bubbles := Response.bubble_set (correct_response self) in
  let response_bubbles := Response.bubble_set response in
  if partial_credit self then
    let num_correct := Z.of_nat (size (correct_bubbles ∩ response_bubbles)) in
    let num_wrong := Z.of_nat (size (response_bubbles ∖ correct_bubbles)) in
    score ← Num.fdiv (Str.float_of_Z (num_correct - num_wrong))
                     (Num.Int (Z.of_nat (size correct_bubbles)));
    Ok (Num.max2 (Num.Int 0) score)
  else
    Ok (Num.Int (if bool_decide (correct_bubbles = response_bubbles)
                 then 1 else 0)).

End RubricItem.

(** ** Rubric *)

Module Rubric.

Record t : Set := mk {
  items : list RubricItem.t;
  points : float;
  extra_credit : bool
}.

Definition parse (value : string) : result t :=
  let parts := Str.split value in
  last ← Seq.getitem parts (-1);
  let extra_credit := String.eqb last "E" in
  let is_points_first :=
    (length parts =? 3)%nat ||
    ((length parts =? 2)%nat && negb extra_credit) in
  points ← (if is_points_first
            then first ← Seq.getitem parts 0; Str.float first
            else Ok 1%float);
  sequence ← Seq.getitem parts (if is_points_first then 1 else 0);
  items ← mapM RubricItem.parse (Str.split_on "|" sequence);
  Ok {| items := items; points := points; extra_credit := extra_credit |}.

Definition grade (self : t) (response : Response.t)
  : result (Num.t * Num.t) :=
  grades ← mapM (fun item => RubricItem.grade item response) (items self);
  best ← Num.max grades;
  let points_earned := Num.fmul (points self) best in
  let out_of :=
    if negb (extra_credit self) then Num.Float (points self)
    else Num.Int 0 in
  Ok (points_earned, out_of).

End Rubric.

(** ** Key *)

Module Key.

Record t : Set := mk {
  form : Bubble.t;
  questions : list Rubric.t
}.

Definition parse (row : list string) : result t :=
  field3 ← Seq.getitem row 3;
  num_questions ← Str.int field3;
  field0 ← Seq.getitem row 0;
  form ← Bubble.parse field0;
  questions ← mapM Rubric.parse (Seq.slice row 4 (4 + num_questions));
  Ok {| form := form; questions := questions |}.

(** [zip(questions, responses)]: as long as the shorter list. *)
Fixpoint zip {X Y} (xs : list X) (ys : list Y) : list (X * Y) :=
  match xs, ys with
  | x :: xs', y :: ys' => (x, y) :: zip xs' ys'
  | _, _ => []
  end.

(** [zip( *scorings)] for a list of pairs: the list of first components
    and the list of second components, and nothing at all when
    [scorings] is empty. *)
Definition unzip_star (scorings : list (Num.t * Num.t)) : list (list Num.t) :=
  match scorings with
  | [] => []
  | _ => [map fst scorings; map snd scorings]
  end.

(** The tuple that [grade] returns is a list: its length is not fixed by
    the code. *)
Definition grade (self : t) (scantron : Scantron.t) : result (list Num.t) :=
  _ ← py_assert (bool_decide (Scantron.form scantron = form self));
  _ ← py_assert (length (Scantron.responses scantron)
              =? length (questions self))%nat;
  scorings ← mapM (fun '(rubric, response) => Rubric.grade rubric response)
                  (zip (questions self) (Scantron.responses scantron));
  Ok (map Num.sum (unzip_star scorings)).

End Key.

(** ** ScantronGrade *)

Module ScantronGrade.

Record t : Set := mk {
  student : Student.t;
  form : Bubble.t;
  points : Num.t;
  out_of : Num.t
}.

End ScantronGrade.

(** ** Grader

    [_keys] is a class attribute: one list object, created when the class
    body runs.  [__init__] never binds [self._keys], so for every instance
    [self._keys] is that one list and [append] mutates it in place.  The
    state of the program is therefore the content of this list; an instance
    carries no attribute of its own. *)

Module Grader.

Record class_state : Set := { _keys : list Key.t }.

Record t : Set := mk { }.

(** The property [keys]. *)
Definition keys (st : class_state) (self : t) : list Key.t := _keys st.

(** [add_key(self, key)]: the state after the call and its outcome. *)
Definition add_key (st : class_state) (self : t) (key : Key.t)
  : class_state * result unit :=
  if bool_decide (Key.form key ∉ map Key.form (keys st self)) then
    ({| _keys := _keys st ++ [key] |}, Ok tt)
  else (st, Raise AssertionError).

(** [for key in keys: add_key(self, key)]. *)
Fixpoint add_keys (st : class_state) (self : t) (keys : list Key.t)
  : class_state * result unit :=
  match keys with
  | [] => (st, Ok tt)
  | key :: rest =>
      match add_key st self key with
      | (st', Ok _) => add_keys st' self rest
      | (st', Raise e) => (st', Raise e)
      end
  end.

(** [Grader(keys)]: the instance is returned only when [__init__] ends
    without raising. *)
Definition new (st : class_state) (keys : list Key.t)
  : class_state * result t :=
  let self := mk in
  match add_keys st self keys with
  | (st', Ok _) => (st', Ok self)
  | (st', Raise e) => (st', Raise e)
  end.

(** The state when the class has just been defined. *)
Definition initial : class_state := {| _keys := [] |}.

Fixpoint find (form : Bubble.t) (ks : list Key.t) : result Key.t :=
  match ks with
  | [] => Raise AssertionError
  | key :: rest =>
      if bool_decide (Key.form key = form) then Ok key else find form rest
  end.

Definition _find_key (st : class_state) (self : t) (form : Bubble.t)
  : result Key.t :=
  find form (keys st self).

(** [points, out_of = ...] unpacks a tuple of exactly two items. *)
Definition unpack2 {T} (tuple : list T) : result (T * T) :=
  match tuple with
  | [x; y] => Ok (x, y)
  | _ => Raise ValueError
  end.

Definition grade (st : class_state) (self : t) (scantron : Scantron.t)
  : result ScantronGrade.t :=
  key ← _find_key st self (Scantron.form scantron);
  tuple ← Key.grade key scantron;
  '(points, out_of) ← unpack2 tuple;
  Ok {| ScantronGrade.student := Scantron.student scantron;
        ScantronGrade.form := Scantron.form scantron;
        ScantronGrade.points := points;
        ScantronGrade.out_of := out_of |}.

Definition grade_all (st : class_state) (self : t)
    (scantrons : list Scantron.t) : result (list ScantronGrade.t) :=
  mapM (grade st self) scantrons.

End Grader.


(** ** Equality of responses *)

(** [Response.__eq__]: the two bubble lists are compared. *)
Definition Response_eq (self other : Response.t) : bool :=
  bool_decide (Response.bubbles self = Response.bubbles other).

(** ** The command [grade] of godel.py

    The rows that [csv.reader] yields are given as a list; opening the file
    and writing the grades out are not modelled. *)

Module Godel.

(** [row[1] == 'KEY' and row[2] == '']: [row[2]] is read only when the first
    comparison holds. *)
Definition is_key_row (row : list string) : result bool :=
  field1 ← Seq.getitem row 1;
  if String.eqb field1 "KEY" then
    field2 ← Seq.getitem row 2;
    Ok (String.eqb field2 "")
  else Ok false.

(** The loop over the rows, with the two lists it appends to. *)
Fixpoint separate (rows : list (list string))
    (keys : list Key.t) (scantrons : list Scantron.t)
  : result (list Key.t * list Scantron.t) :=
  match rows with
  | [] => Ok (keys, scantrons)
  | row :: rest =>
      is_key ← is_key_row row;
      if is_key : bool then
        key ← Key.parse row;
        separate rest (keys ++ [key]) scantrons
      else
        scantron ← Scantron.parse row;
        separate rest keys (scantrons ++ [scantron])
  end.

(** [grades = Grader(keys).grade_all(scantrons)] after the loop: the state of
    the key list afterwards, and the grades or the exception. *)
Definition grade (st : Grader.class_state) (rows : list (list string))
  : Grader.class_state * result (list ScantronGrade.t) :=
  match separate rows [] [] with
  | Raise e => (st, Raise e)
  | Ok (keys, scantrons) =>
      match Grader.new st keys with
      | (st', Raise e) => (st', Raise e)
      | (st', Ok grader) => (st', Grader.grade_all st' grader scantrons)
      end
  end.

End Godel.

(** * Vocabulary of the properties *)

(** A digit that is no bubble index. *)
Definition bad_digit (c : ascii) : bool :=
  match Str.digit_value c with
  | Some d => negb ((1 <=? d) && (d <=? 5))
  | None => false
  end.

(** The bubble a one-character token stands for, when it stands for one. *)
Definition token_bubble (c : ascii) : option Bubble.t :=
  match Bubble.parse (Str.of_char c) with
  | Ok b => Some b
  | Raise _ => None
  end.

(** The tokens of a response text: the characters the substitution keeps. *)
Definition tokens (value : string) : list ascii :=
  filter (fun c => Response.kept c = true) (Str.chars value).

(** Strictly increasing letters. *)
Definition Bubble_lt (a b : Bubble.t) : Prop :=
  (nat_of_ascii (Bubble.value a) < nat_of_ascii (Bubble.value b))%nat.

(** Every value [RubricItem.grade] can return: the integers 0 and 1 and the
    quotients [k / n] for [1 <= k <= n <= 5]. *)
Definition grade_values : list Num.t :=
  Num.Int 0 :: Num.Int 1 ::
  flat_map
    (fun n => map (fun k => Num.Float (Str.float_of_Z k / Str.float_of_Z n))
                (seqZ 1 n))
    (seqZ 1 5).

(** On these values [<=] is a total preorder and [<] its strict part. *)
Definition grade_order_ok : bool :=
  forallb (fun a =>
    Num.leb a a &&
    forallb (fun b =>
      (Num.ltb a b || Num.leb b a) &&
      implb (Num.ltb a b) (Num.leb a b) &&
      forallb (fun c =>
        implb (Num.leb a b && Num.leb b c) (Num.leb a c)) grade_values)
      grade_values)
    grade_values.

(** An item whose grade is defined for every response: it has no partial
    credit, or its correct set is not empty. *)
Definition gradable (item : RubricItem.t) : Prop :=
  RubricItem.partial_credit item = true →
  Response.bubble_set (RubricItem.correct_response item) ≠ ∅.

(** The forms of a list of keys, [[k.form for k in ks]]. *)
Definition forms (ks : list Key.t) : list Bubble.t := map Key.form ks.

(** The key list after a run of constructions [Grader(keys)], one for each
    argument of [history] in turn, failed or not. *)
Definition constructions (st : Grader.class_state) (history : list (list Key.t))
  : Grader.class_state :=
  fold_left (fun st keys => (Grader.new st keys).1) history st.

(** The rubric "2 PAB|ABC E". *)
Definition rubric_PAB_or_ABC : Rubric.t :=
  {| Rubric.items :=
       [{| RubricItem.correct_response := Response.new [Bubble.A; Bubble.B];
           RubricItem.partial_credit := true |};
        {| RubricItem.correct_response :=
             Response.new [Bubble.A; Bubble.B; Bubble.C];
           RubricItem.partial_credit := false |}];
     Rubric.points := 2;
     Rubric.extra_credit := true |}.

(** Keys of form A and of form B. *)
Definition key_A (questions : list Rubric.t) : Key.t :=
  {| Key.form := Bubble.A; Key.questions := questions |}.

Definition key_B (questions : list Rubric.t) : Key.t :=
  {| Key.form := Bubble.B; Key.questions := questions |}.

(** The text made of the letters of a list of bubbles,
    [''.join(b.value for b in l)]. *)
Definition letters (l : list Bubble.t) : string :=
  Str.of_chars (map Bubble.value l).

(** A token of [str.split()]: not empty, and without whitespace. *)
Definition word (p : string) : Prop :=
  p ≠ "" ∧ Forall (fun c => Str.char_isspace c = false) (Str.chars p).

(** A text that [str.strip()] leaves as it is: it neither starts nor ends
    with whitespace. *)
Definition trimmed (cs : list ascii) : Prop :=
  (∀ c cs', cs = c :: cs' → Str.char_isspace c = false) ∧
  (∀ c cs', cs = (cs' ++ [c])%list → Str.char_isspace c = false).

(** Whether the loop of the command takes a row for a key row ([kind] true)
    or for a scantron row ([kind] false); neither when the test raises. *)
Definition taken_as (row : list string) (kind : bool) : bool :=
  match Godel.is_key_row row with
  | Ok is_key => Bool.eqb is_key kind
  | Raise _ => false
  end.

(** The scantron of form A with the one response A, B, C. *)
Definition scantron_ABC : Scantron.t :=
  {| Scantron.student := Student.new "WANG AY" "12345678";
     Scantron.form := Bubble.A;
     Scantron.responses := [Response.new [Bubble.A; Bubble.B; Bubble.C]] |}.

(** * Properties of the embedded program *)

(** ** The result monad *)

Lemma mapM_result_length {X Y} (f : X -> result Y) (l : list X) (k : list Y) :
  mapM f l = Ok k → length k = length l.
Proof.
  revert k. induction l as [|x l IH]; intros k; simpl.
  - intros [= <-]. reflexivity.
  - destruct (f x) as [y|e]; simpl; [|discriminate].
    destruct (mapM f l) as [k'|e]; simpl; [|discriminate].
    intros [= <-]. simpl. f_equal. apply IH. reflexivity.
Qed.

(** ** Bubble tokens *)

Lemma Bubble_parse_token (c : ascii) :
  Response.kept c = true →
  Bubble.parse (Str.of_char c) =
    (if bad_digit c then Raise ValueError
     else match token_bubble c with
          | Some b => Ok b
          | None => Raise ValueError
          end) ∧
  (bad_digit c = false → is_Some (token_bubble c)).
Proof.
  destruct c as [[] [] [] [] [] [] [] []]; vm_compute;
    intros Hk; try discriminate Hk; split; try reflexivity;
    intros Hb; try discriminate Hb; eexists; reflexivity.
Qed.

Lemma bad_digit_kept (c : ascii) : bad_digit c = true → Response.kept c = true.
Proof.
  unfold bad_digit, Response.kept, Str.is_decimal.
  destruct (Str.digit_value c); [reflexivity|discriminate].
Qed.

Lemma bad_digit_spec (c : ascii) :
  bad_digit c = true ↔ ∃ d, Str.digit_value c = Some d ∧ ¬ (1 <= d <= 5).
Proof.
  unfold bad_digit. destruct (Str.digit_value c) as [d|]; split.
  - intros Hb. exists d. split; [reflexivity|].
    apply negb_true_iff, andb_false_iff in Hb. lia.
  - intros (d' & [= <-] & Hd). apply negb_true_iff, andb_false_iff. lia.
  - discriminate.
  - intros (d' & Hd & _). discriminate.
Qed.

Lemma mapM_tokens (ks : list ascii) :
  Forall (fun c => Response.kept c = true) ks →
  mapM (fun num => Bubble.parse (Str.of_char num)) ks =
    if existsb bad_digit ks then Raise ValueError
    else Ok (omap token_bubble ks).
Proof.
  induction 1 as [|c ks Hc Hks IH]; [reflexivity|].
  cbn [mapM existsb]. rewrite IH.
  destruct (Bubble_parse_token c Hc) as [-> Hsome].
  destruct (bad_digit c); [reflexivity|]. simpl.
  destruct (Hsome eq_refl) as [b Hb]. rewrite Hb.
  destruct (existsb bad_digit ks); simpl; [reflexivity|].
  rewrite ?Hb. reflexivity.
Qed.

(** [Response.parse] as a function of the tokens of its text. *)
Lemma Response_parse_tokens (value : string) :
  Response.parse value =
    if existsb bad_digit (tokens value) then Raise ValueError
    else Ok (Response.new
               (list_of_set (set_of_list (omap token_bubble (tokens value))))).
Proof.
  unfold Response.parse. fold (tokens value).
  rewrite mapM_tokens.
  - destruct (existsb bad_digit (tokens value)); reflexivity.
  - unfold tokens. apply Forall_forall. intros c Hc.
    apply list_elem_of_filter in Hc. tauto.
Qed.

Lemma chars_app (s1 s2 : string) :
  Str.chars (s1 ++ s2) = (Str.chars s1 ++ Str.chars s2)%list.
Proof.
  induction s1 as [|c s1 IH]; simpl; [reflexivity|].
  unfold Str.chars in *. simpl. rewrite IH. reflexivity.
Qed.

Lemma existsb_elem_of {X} (p : X -> bool) (l : list X) :
  existsb p l = true ↔ ∃ x, x ∈ l ∧ p x = true.
Proof.
  rewrite existsb_exists. split; intros (x & Hx & Hp); exists x;
    (split; [apply list_elem_of_In; exact Hx | exact Hp]).
Qed.

Lemma existsb_same_elements {X} (p : X -> bool) (l l' : list X) :
  (∀ x, x ∈ l ↔ x ∈ l') → existsb p l = existsb p l'.
Proof.
  intros Hl. apply eq_true_iff_eq. rewrite !existsb_elem_of.
  split; intros (x & Hx & Hp); exists x; (split; [apply Hl; exact Hx|exact Hp]).
Qed.

(** The parse of a text is a function of the set of its tokens. *)
Lemma Response_parse_same_tokens (s s' : string) :
  (∀ c, c ∈ tokens s ↔ c ∈ tokens s') → Response.parse s = Response.parse s'.
Proof.
  intros Hs. rewrite !Response_parse_tokens.
  rewrite (existsb_same_elements bad_digit _ _ Hs).
  destruct (existsb bad_digit (tokens s')); [reflexivity|].
  do 3 f_equal. unfold set_of_list. apply set_eq. intros b.
  rewrite !elem_of_list_to_set, !list_elem_of_omap.
  split; intros (c & Hc & Hb); exists c; (split; [apply Hs; exact Hc|exact Hb]).
Qed.

Lemma elem_of_tokens (c : ascii) (s : string) :
  c ∈ tokens s ↔ Response.kept c = true ∧ c ∈ Str.chars s.
Proof.
  unfold tokens.
  apply (list_elem_of_filter (fun c => Response.kept c = true)).
Qed.

Lemma not_kept (c : ascii) :
  Str.digit_value c = None → Bubble.of_letter c = None →
  Response.kept c = false.
Proof.
  intros Hd Hl. unfold Response.kept, Str.is_decimal. rewrite Hd, Hl.
  reflexivity.
Qed.


Lemma Response_parse_discard (s1 s2 : string) (c : ascii) :
  Response.kept c = false →
  Response.parse (s1 ++ String c s2) = Response.parse (s1 ++ s2).
Proof.
  intros Hc. apply Response_parse_same_tokens. intros c'.
  rewrite !elem_of_tokens, !chars_app. unfold Str.chars at 2. simpl.
  fold (Str.chars s2). rewrite !elem_of_app, elem_of_cons.
  split; [|tauto]. intros (Hk & [H1|[->|H2]]); [tauto| |tauto].
  congruence.
Qed.


(** ** The canonical order of a response *)

#[global] Instance Bubble_le_total : Total Bubble.le.
Proof. intros a b. unfold Bubble.le. lia. Qed.

#[global] Instance Bubble_le_trans : Transitive Bubble.le.
Proof. intros a b c. unfold Bubble.le. lia. Qed.

#[global] Instance Bubble_le_antisym : AntiSymm (=) Bubble.le.
Proof.
  intros a b. unfold Bubble.le.
  destruct a, b; vm_compute; intros Hab Hba; try reflexivity; exfalso; lia.
Qed.

(** The response built from a list does not depend on the order of the list:
    whatever order a set is iterated in, [Response(list(s))] is the same. *)
Lemma Response_new_perm (l l' : list Bubble.t) :
  l ≡ₚ l' → Response.new l = Response.new l'.
Proof.
  intros Hp. unfold Response.new, Response.sorted. f_equal.
  apply (Sorted_unique Bubble.le).
  - apply Sorted_merge_sort; apply _.
  - apply Sorted_merge_sort; apply _.
  - rewrite !merge_sort_Permutation. exact Hp.
Qed.

Lemma StronglySorted_le_lt (l : list Bubble.t) :
  StronglySorted Bubble.le l → NoDup l → StronglySorted Bubble_lt l.
Proof.
  induction 1 as [|a l Hl IH Ha]; intros Hnd; [constructor|].
  apply NoDup_cons in Hnd as [Hnot Hnd]. constructor; [auto|].
  apply Forall_forall. intros b Hb.
  assert (Hab : Bubble.le a b) by (eapply Forall_forall in Ha; eauto).
  assert (Hne : a ≠ b) by (intros ->; contradiction).
  revert Hab Hne. clear. unfold Bubble.le, Bubble_lt.
  destruct a, b; vm_compute; intros Hab Hne; try lia; congruence.
Qed.

Lemma Response_new_of_set (s : gset Bubble.t) :
  StronglySorted Bubble_lt (Response.bubbles (Response.new (list_of_set s))).
Proof.
  simpl. unfold Response.sorted, list_of_set. apply StronglySorted_le_lt.
  - apply StronglySorted_merge_sort; apply _.
  - rewrite merge_sort_Permutation. apply NoDup_elements.
Qed.



Lemma Forall_not_kept_tokens (value : string) :
  (∀ c, c ∈ Str.chars value →
        Str.digit_value c = None ∧ Bubble.of_letter c = None) →
  tokens value = [].
Proof.
  intros Hall. destruct (tokens value) as [|c ks] eqn:Hks; [reflexivity|].
  assert (Hc : c ∈ tokens value) by (rewrite Hks; left).
  apply elem_of_tokens in Hc as [Hk Hc].
  destruct (Hall c Hc) as [Hd Hl]. rewrite (not_kept c Hd Hl) in Hk.
  discriminate.
Qed.

(** C10. [Response.parse] raises exactly when its text has a decimal digit
    other than 1-5, and what it raises then is a [ValueError].  A character
    that is neither a decimal digit nor a letter A-E is dropped: the text
    parses as it does without it, and a text made of such characters only (as
    "F", "f(x) Fz", the empty text, and the superscript two U+00B2, which is
    no decimal digit, are) parses to the empty response. *)
Theorem Response_parse_raises_iff :
  (∀ value : string,
      (∃ e, Response.parse value = Raise e) ↔
      (∃ c d, c ∈ Str.chars value ∧ Str.digit_value c = Some d ∧
              ¬ (1 <= d <= 5))) ∧
  (∀ (value : string) (e : exn),
      Response.parse value = Raise e → e = ValueError) ∧
  (∀ (s1 s2 : string) (c : ascii),
      Str.digit_value c = None → Bubble.of_letter c = None →
      Response.parse (s1 ++ String c s2) = Response.parse (s1 ++ s2)) ∧
  (∀ value : string,
      (∀ c, c ∈ Str.chars value →
            Str.digit_value c = None ∧ Bubble.of_letter c = None) →
      Response.parse value = Ok {| Response.bubbles := [] |}) ∧
  Response.parse "F" = Ok {| Response.bubbles := [] |} ∧
  Response.parse "" = Ok {| Response.bubbles := [] |} ∧
  Response.parse "f(x) Fz" = Ok {| Response.bubbles := [] |} ∧
  Response.parse (Str.of_char (ascii_of_nat 178)) =
    Ok {| Response.bubbles := [] |} ∧
  Response.parse "A0" = Raise ValueError ∧
  Response.parse "6" = Raise ValueError.
Proof.
  split.
  { intros value. rewrite Response_parse_tokens.
    destruct (existsb bad_digit (tokens value)) eqn:Hbad.
    - split; [|intros _; eexists; reflexivity]. intros _.
      apply existsb_elem_of in Hbad as (c & Hc & Hb).
      apply elem_of_tokens in Hc as [_ Hc].
      apply bad_digit_spec in Hb as (d & Hd & Hr). eauto.
    - split; [intros (e & He); discriminate|].
      intros (c & d & Hc & Hd & Hr). exfalso.
      assert (Hb : bad_digit c = true) by (apply bad_digit_spec; eauto).
      assert (Hex : existsb bad_digit (tokens value) = true).
      { apply existsb_elem_of. exists c. split; [|exact Hb].
        apply elem_of_tokens. split; [apply bad_digit_kept, Hb|exact Hc]. }
      congruence. }
  split.
  { intros value e. rewrite Response_parse_tokens.
    destruct (existsb bad_digit (tokens value)); congruence. }
  split; [intros s1 s2 c Hd Hl; apply Response_parse_discard, not_kept; auto|].
  split.
  { intros value Hall. rewrite Response_parse_tokens.
    rewrite (Forall_not_kept_tokens value Hall). reflexivity. }
  repeat split; vm_compute; reflexivity.
Qed.

(** ** Grading one rubric item *)

Lemma size_bubble_set_le (s : gset Bubble.t) : (size s <= 5)%nat.
Proof.
  change 5%nat with (size (set_of_list BUBBLES)).
  apply subseteq_size. intros b _. unfold set_of_list, BUBBLES.
  destruct b; set_solver.
Qed.

Lemma Num_eqb_size_0 (s : gset Bubble.t) :
  Num.eqb (Num.Int (Z.of_nat (size s))) (Num.Int 0) = bool_decide (s = ∅).
Proof.
  simpl. destruct (decide (s = ∅)) as [->|Hne].
  - rewrite bool_decide_eq_true_2 by reflexivity. reflexivity.
  - rewrite bool_decide_eq_false_2 by assumption.
    apply Z.eqb_neq. intros Hz. apply Hne, leibniz_equiv, size_empty_iff. lia.
Qed.

(** The two outcomes of a partial-credit grade. *)
Lemma RubricItem_grade_partial_cases (item : RubricItem.t) (response : Response.t) :
  RubricItem.partial_credit item = true →
  RubricItem.grade item response =
    if bool_decide
         (Response.bubble_set (RubricItem.correct_response item) = ∅)
    then Raise ZeroDivisionError
    else
      Ok (Num.max2 (Num.Int 0)
            (Num.Float
               (Str.float_of_Z
                  (Z.of_nat (size (Response.bubble_set
                                     (RubricItem.correct_response item)
                                   ∩ Response.bubble_set response)) -
                   Z.of_nat (size (Response.bubble_set response
                                   ∖ Response.bubble_set
                                       (RubricItem.correct_response item))))
                / Str.float_of_Z
                    (Z.of_nat (size (Response.bubble_set
                                       (RubricItem.correct_response item))))))).
Proof.
  intros Hp. unfold RubricItem.grade. rewrite Hp. unfold Num.fdiv.
  rewrite Num_eqb_size_0.
  destruct (bool_decide _); reflexivity.
Qed.

(** A quotient of a difference of counts by the number of correct bubbles,
    clamped below, lies between 0 and 1. *)
Lemma clamped_score_bounds (k n : Z) :
  -5 <= k <= n → 1 <= n <= 5 →
  Num.leb (Num.Int 0)
    (Num.max2 (Num.Int 0)
       (Num.Float (Str.float_of_Z k / Str.float_of_Z n))) = true ∧
  Num.leb
    (Num.max2 (Num.Int 0)
       (Num.Float (Str.float_of_Z k / Str.float_of_Z n)))
    (Num.Int 1) = true.
Proof.
  intros Hk Hn.
  assert (Hn' : n = 1 ∨ n = 2 ∨ n = 3 ∨ n = 4 ∨ n = 5) by lia.
  assert (Hk' : k = -5 ∨ k = -4 ∨ k = -3 ∨ k = -2 ∨ k = -1 ∨ k = 0 ∨
                k = 1 ∨ k = 2 ∨ k = 3 ∨ k = 4 ∨ k = 5) by lia.
  repeat (destruct Hn' as [->|Hn']; [|]);
    try subst n;
    repeat (destruct Hk' as [->|Hk']; [|]);
    try subst k; try lia; vm_compute; split; reflexivity.
Qed.

(** C9. The rubric item "P" has partial credit and an empty correct response,
    and grading it raises [ZeroDivisionError] for every response.  For an item
    with partial credit the division raises when the correct set is empty and
    returns a score when it is not. *)
Theorem RubricItem_grade_division_by_zero :
  RubricItem.parse "P" =
    Ok {| RubricItem.correct_response := {| Response.bubbles := [] |};
          RubricItem.partial_credit := true |} ∧
  (∀ response : Response.t,
      (item ← RubricItem.parse "P"; RubricItem.grade item response) =
      Raise ZeroDivisionError) ∧
  (∀ (item : RubricItem.t) (response : Response.t),
      RubricItem.partial_credit item = true →
      (Response.bubble_set (RubricItem.correct_response item) = ∅ →
       RubricItem.grade item response = Raise ZeroDivisionError) ∧
      (Response.bubble_set (RubricItem.correct_response item) ≠ ∅ →
       ∃ score, RubricItem.grade item response = Ok score)).
Proof.
  split; [vm_compute; reflexivity|].
  split.
  - intros response.
    change (RubricItem.parse "P") with
      (Ok {| RubricItem.correct_response := {| Response.bubbles := [] |};
             RubricItem.partial_credit := true |}).
    simpl. rewrite RubricItem_grade_partial_cases by reflexivity.
    reflexivity.
  - intros item response Hp.
    rewrite (RubricItem_grade_partial_cases item response Hp).
    split; intros He.
    + rewrite bool_decide_eq_true_2 by assumption. reflexivity.
    + rewrite bool_decide_eq_false_2 by assumption. eexists. reflexivity.
Qed.

(** C4. For an item with partial credit and a non-empty correct set, the
    grade of a response is [max(0, (correct - wrong) / |correct set|)], with
    [correct] the number of selected bubbles in the correct set and [wrong]
    the number of selected bubbles outside it; it is at least 0 and at
    most 1. *)
Theorem RubricItem_grade_partial
    (item : RubricItem.t) (response : Response.t) :
  RubricItem.partial_credit item = true →
  Response.bubble_set (RubricItem.correct_response item) ≠ ∅ →
  ∃ score : Num.t,
    RubricItem.grade item response = Ok score ∧
    score =
      Num.max2 (Num.Int 0)
        (Num.Float
           (Str.float_of_Z
              (Z.of_nat (size (Response.bubble_set
                                 (RubricItem.correct_response item)
                               ∩ Response.bubble_set response)) -
               Z.of_nat (size (Response.bubble_set response
                               ∖ Response.bubble_set
                                   (RubricItem.correct_response item))))
            / Str.float_of_Z
                (Z.of_nat (size (Response.bubble_set
                                   (RubricItem.correct_response item)))))) ∧
    Num.leb (Num.Int 0) score = true ∧
    Num.leb score (Num.Int 1) = true.
Proof.
  intros Hp Hne.
  rewrite (RubricItem_grade_partial_cases item response Hp).
  rewrite bool_decide_eq_false_2 by assumption.
  eexists. split; [reflexivity|]. split; [reflexivity|].
  set (cs := Response.bubble_set (RubricItem.correct_response item)) in *.
  set (rs := Response.bubble_set response).
  apply clamped_score_bounds.
  - assert (size (cs ∩ rs) <= size cs)%nat
      by apply subseteq_size, intersection_subseteq_l.
    pose proof (size_bubble_set_le (rs ∖ cs)). lia.
  - pose proof (size_bubble_set_le cs).
    assert (size cs ≠ 0%nat) by (intros Hz; apply Hne, leibniz_equiv, size_empty_iff, Hz).
    lia.
Qed.

(** The theorem at the item PABC and the response A, D. *)
Lemma RubricItem_grade_partial_witness :
  ∃ score : Num.t,
    RubricItem.grade
      {| RubricItem.correct_response :=
           Response.new [Bubble.A; Bubble.B; Bubble.C];
         RubricItem.partial_credit := true |}
      (Response.new [Bubble.A; Bubble.D]) = Ok score ∧
    score =
      Num.max2 (Num.Int 0)
        (Num.Float
           (Str.float_of_Z
              (Z.of_nat (size (Response.bubble_set
                                 (Response.new [Bubble.A; Bubble.B; Bubble.C])
                               ∩ Response.bubble_set
                                   (Response.new [Bubble.A; Bubble.D]))) -
               Z.of_nat (size (Response.bubble_set
                                 (Response.new [Bubble.A; Bubble.D])
                               ∖ Response.bubble_set
                                   (Response.new
                                      [Bubble.A; Bubble.B; Bubble.C]))))
            / Str.float_of_Z
                (Z.of_nat (size (Response.bubble_set
                                   (Response.new
                                      [Bubble.A; Bubble.B; Bubble.C])))))) ∧
    Num.leb (Num.Int 0) score = true ∧
    Num.leb score (Num.Int 1) = true.
Proof.
  apply (RubricItem_grade_partial
           {| RubricItem.correct_response :=
                Response.new [Bubble.A; Bubble.B; Bubble.C];
              RubricItem.partial_credit := true |}
           (Response.new [Bubble.A; Bubble.D])).
  - reflexivity.
  - vm_compute. discriminate.
Defined.

(** ** The grades an item can return, and their maximum *)

Lemma grade_order_holds : grade_order_ok = true.
Proof. vm_compute. reflexivity. Qed.

Lemma grade_order_at (a b c : Num.t) :
  In a grade_values → In b grade_values → In c grade_values →
  Num.leb a a = true ∧
  (Num.ltb a b || Num.leb b a) = true ∧
  implb (Num.ltb a b) (Num.leb a b) = true ∧
  implb (Num.leb a b && Num.leb b c) (Num.leb a c) = true.
Proof.
  intros Ha Hb Hc.
  pose proof grade_order_holds as H. unfold grade_order_ok in H.
  rewrite forallb_forall in H. specialize (H a Ha).
  apply andb_true_iff in H as [Hrefl H].
  rewrite forallb_forall in H. specialize (H b Hb).
  apply andb_true_iff in H as [H Htr].
  apply andb_true_iff in H as [Htot Hlt].
  rewrite forallb_forall in Htr. specialize (Htr c Hc).
  auto.
Qed.

Lemma grade_leb_refl (a : Num.t) :
  In a grade_values → Num.leb a a = true.
Proof. intros Ha. apply (grade_order_at a a a Ha Ha Ha). Qed.

Lemma grade_ltb_leb (a b : Num.t) :
  In a grade_values → In b grade_values →
  Num.ltb a b = true → Num.leb a b = true.
Proof.
  intros Ha Hb Hlt.
  destruct (grade_order_at a b b Ha Hb Hb) as (_ & _ & H & _).
  rewrite Hlt in H. exact H.
Qed.

Lemma grade_not_ltb_leb (a b : Num.t) :
  In a grade_values → In b grade_values →
  Num.ltb a b = false → Num.leb b a = true.
Proof.
  intros Ha Hb Hlt.
  destruct (grade_order_at a b b Ha Hb Hb) as (_ & H & _ & _).
  rewrite Hlt in H. exact H.
Qed.

Lemma grade_leb_trans (a b c : Num.t) :
  In a grade_values → In b grade_values → In c grade_values →
  Num.leb a b = true → Num.leb b c = true → Num.leb a c = true.
Proof.
  intros Ha Hb Hc Hab Hbc.
  destruct (grade_order_at a b c Ha Hb Hc) as (_ & _ & _ & H).
  rewrite Hab, Hbc in H. exact H.
Qed.

Lemma max2_in_values (a b : Num.t) :
  In a grade_values → In b grade_values → In (Num.max2 a b) grade_values.
Proof. intros Ha Hb. unfold Num.max2. destruct (Num.ltb a b); assumption. Qed.

(** The fold of [max]: an item of the list, and no item is greater. *)
Lemma fold_max2_greatest (l : list Num.t) (x : Num.t) :
  In x grade_values → Forall (fun g => In g grade_values) l →
  In (fold_left Num.max2 l x) grade_values ∧
  fold_left Num.max2 l x ∈ x :: l ∧
  Forall (fun g => Num.leb g (fold_left Num.max2 l x) = true) (x :: l).
Proof.
  intros Hx Hl. revert x Hx.
  induction Hl as [|y l Hy Hl IH]; intros x Hx; simpl.
  - split; [exact Hx|]. split; [left|].
    constructor; [apply grade_leb_refl; exact Hx|constructor].
  - pose proof (max2_in_values x y Hx Hy) as Hm.
    destruct (IH (Num.max2 x y) Hm) as (Hin & Hel & Hall).
    split; [exact Hin|]. split.
    + apply elem_of_cons in Hel as [Hel|Hel].
      * rewrite Hel. unfold Num.max2.
        destruct (Num.ltb x y); [right; left|left].
      * right; right; exact Hel.
    + apply Forall_cons in Hall as [Hmax Hall].
      assert (Hxm : Num.leb x (Num.max2 x y) = true).
      { unfold Num.max2. destruct (Num.ltb x y) eqn:Hlt.
        - apply grade_ltb_leb; assumption.
        - apply grade_leb_refl; assumption. }
      assert (Hym : Num.leb y (Num.max2 x y) = true).
      { unfold Num.max2. destruct (Num.ltb x y) eqn:Hlt.
        - apply grade_leb_refl; assumption.
        - apply grade_not_ltb_leb; assumption. }
      constructor; [|constructor; [|exact Hall]].
      * apply (grade_leb_trans x (Num.max2 x y)); auto.
      * apply (grade_leb_trans y (Num.max2 x y)); auto.
Qed.

Lemma clamped_score_in_values (k n : Z) :
  -5 <= k <= n → 1 <= n <= 5 →
  In (Num.max2 (Num.Int 0) (Num.Float (Str.float_of_Z k / Str.float_of_Z n)))
     grade_values.
Proof.
  intros Hk Hn.
  assert (Hn' : n = 1 ∨ n = 2 ∨ n = 3 ∨ n = 4 ∨ n = 5) by lia.
  assert (Hk' : k = -5 ∨ k = -4 ∨ k = -3 ∨ k = -2 ∨ k = -1 ∨ k = 0 ∨
                k = 1 ∨ k = 2 ∨ k = 3 ∨ k = 4 ∨ k = 5) by lia.
  repeat (destruct Hn' as [->|Hn']; [|]);
    try subst n;
    repeat (destruct Hk' as [->|Hk']; [|]);
    try subst k; try lia; vm_compute;
    repeat first [left; reflexivity | right].
Qed.

Lemma RubricItem_grade_in_values
    (item : RubricItem.t) (response : Response.t) (g : Num.t) :
  RubricItem.grade item response = Ok g → In g grade_values.
Proof.
  destruct (RubricItem.partial_credit item) eqn:Hp.
  - rewrite (RubricItem_grade_partial_cases item response Hp).
    destruct (bool_decide_reflect
                (Response.bubble_set (RubricItem.correct_response item) = ∅))
      as [He|Hne]; [discriminate|].
    intros [= <-].
    set (cs := Response.bubble_set (RubricItem.correct_response item)) in *.
    set (rs := Response.bubble_set response).
    apply clamped_score_in_values.
    + assert (size (cs ∩ rs) <= size cs)%nat
        by apply subseteq_size, intersection_subseteq_l.
      pose proof (size_bubble_set_le (rs ∖ cs)). lia.
    + pose proof (size_bubble_set_le cs).
      assert (size cs ≠ 0%nat)
        by (intros Hz; apply Hne, leibniz_equiv, size_empty_iff, Hz).
      lia.
  - unfold RubricItem.grade. rewrite Hp. intros [= <-].
    destruct (bool_decide _); simpl; auto.
Qed.

Lemma gradable_grade (item : RubricItem.t) (response : Response.t) :
  gradable item → ∃ g, RubricItem.grade item response = Ok g.
Proof.
  intros Hg. destruct (RubricItem.partial_credit item) eqn:Hp.
  - rewrite (RubricItem_grade_partial_cases item response Hp).
    rewrite bool_decide_eq_false_2 by (apply Hg; exact Hp).
    eexists; reflexivity.
  - unfold RubricItem.grade. rewrite Hp. eexists; reflexivity.
Qed.

Lemma mapM_grade_gradable (items : list RubricItem.t) (response : Response.t) :
  Forall gradable items →
  ∃ grades,
    mapM (fun item => RubricItem.grade item response) items = Ok grades ∧
    Forall2 (fun item g => RubricItem.grade item response = Ok g)
      items grades ∧
    Forall (fun g => In g grade_values) grades.
Proof.
  induction 1 as [|item items Hi His IH].
  - exists []. repeat split; constructor.
  - destruct (gradable_grade item response Hi) as [g Hg].
    destruct IH as (grades & Hm & H2 & Hv).
    exists (g :: grades). cbn [mapM]. rewrite Hg, Hm.
    split; [reflexivity|]. split; constructor; auto.
    eapply RubricItem_grade_in_values; eauto.
Qed.

(** The counterexample to C5 as stated: the rubric "P" has one item, and
    grading it raises instead of returning a pair. *)
Lemma Rubric_grade_raises :
  Rubric.parse "P" =
    Ok {| Rubric.items :=
            [{| RubricItem.correct_response := {| Response.bubbles := [] |};
                RubricItem.partial_credit := true |}];
          Rubric.points := 1;
          Rubric.extra_credit := false |} ∧
  Rubric.grade
    {| Rubric.items :=
         [{| RubricItem.correct_response := {| Response.bubbles := [] |};
             RubricItem.partial_credit := true |}];
       Rubric.points := 1;
       Rubric.extra_credit := false |}
    (Response.new [Bubble.A]) = Raise ZeroDivisionError.
Proof. split; vm_compute; reflexivity. Qed.

(** C5, amended.  For a rubric with at least one item, in which every item
    with partial credit has a non-empty correct set, grading a response
    returns [points * best] and [points] (0 for extra credit), where [best]
    is the grade of one of the items and no item has a greater grade. *)
Theorem Rubric_grade_best (rubric : Rubric.t) (response : Response.t) :
  Rubric.items rubric ≠ [] →
  Forall gradable (Rubric.items rubric) →
  ∃ (grades : list Num.t) (best : Num.t),
    Forall2 (fun item g => RubricItem.grade item response = Ok g)
      (Rubric.items rubric) grades ∧
    best ∈ grades ∧
    Forall (fun g => Num.leb g best = true) grades ∧
    Rubric.grade rubric response =
      Ok (Num.Float (Rubric.points rubric * Num.to_float best),
          if Rubric.extra_credit rubric then Num.Int 0
          else Num.Float (Rubric.points rubric)).
Proof.
  intros Hne Hg.
  destruct (mapM_grade_gradable _ response Hg) as (grades & Hm & H2 & Hv).
  destruct grades as [|g grades].
  { apply Forall2_nil_inv_r in H2. contradiction. }
  apply Forall_cons in Hv as [Hgv Hv].
  destruct (fold_max2_greatest grades g Hgv Hv) as (_ & Hel & Hall).
  exists (g :: grades), (fold_left Num.max2 grades g).
  split; [exact H2|]. split; [exact Hel|]. split; [exact Hall|].
  unfold Rubric.grade. rewrite Hm. simpl.
  destruct (Rubric.extra_credit rubric); reflexivity.
Qed.

(** The theorem at the rubric "2 PAB|ABC E" and the response A, B, C. *)
Lemma Rubric_grade_best_witness :
  ∃ (grades : list Num.t) (best : Num.t),
    Forall2
      (fun item g =>
         RubricItem.grade item (Response.new [Bubble.A; Bubble.B; Bubble.C])
         = Ok g)
      (Rubric.items rubric_PAB_or_ABC) grades ∧
    best ∈ grades ∧
    Forall (fun g => Num.leb g best = true) grades ∧
    Rubric.grade rubric_PAB_or_ABC
      (Response.new [Bubble.A; Bubble.B; Bubble.C]) =
      Ok (Num.Float (Rubric.points rubric_PAB_or_ABC * Num.to_float best),
          if Rubric.extra_credit rubric_PAB_or_ABC then Num.Int 0
          else Num.Float (Rubric.points rubric_PAB_or_ABC)).
Proof.
  apply (Rubric_grade_best rubric_PAB_or_ABC
           (Response.new [Bubble.A; Bubble.B; Bubble.C])).
  - vm_compute. discriminate.
  - repeat constructor; intros _; vm_compute; discriminate.
Defined.

(** ** Grading a scantron with a key *)

(** With at least one question, and every rubric gradable on its response,
    the totals are the two sums. *)
Lemma Key_grade_sums
    (key : Key.t) (scantron : Scantron.t) (scorings : list (Num.t * Num.t)) :
  Scantron.form scantron = Key.form key →
  length (Scantron.responses scantron) = length (Key.questions key) →
  Key.questions key ≠ [] →
  mapM (fun '(rubric, response) => Rubric.grade rubric response)
       (Key.zip (Key.questions key) (Scantron.responses scantron))
  = Ok scorings →
  Key.grade key scantron =
    Ok [Num.sum (map fst scorings); Num.sum (map snd scorings)].
Proof.
  intros Hf Hl Hq Hm. unfold Key.grade.
  rewrite bool_decide_eq_true_2 by assumption. simpl.
  rewrite (proj2 (Nat.eqb_eq _ _) Hl). simpl. rewrite Hm. simpl.
  destruct scorings as [|s scorings]; [|reflexivity].
  apply mapM_result_length in Hm.
  destruct (Key.questions key) as [|q qs]; [contradiction|].
  destruct (Scantron.responses scantron) as [|r rs]; discriminate.
Qed.

(** C6, at the input where the code departs from it.  A key without
    questions grades a scantron without responses to the empty tuple, not to
    a pair of zeros; such a key and scantron come from rows that declare 0
    questions, and [Grader.grade] then fails to unpack the tuple. *)
Theorem Key_grade_no_questions :
  (∀ (form : Bubble.t) (student : Student.t),
      Key.grade
        {| Key.form := form; Key.questions := [] |}
        {| Scantron.student := student; Scantron.form := form;
           Scantron.responses := [] |} = Ok []) ∧
  Key.parse ["A"; "KEY"; ""; "0"] =
    Ok {| Key.form := Bubble.A; Key.questions := [] |} ∧
  Scantron.parse ["A"; "DOE JANE"; "12345678"; "0"] =
    Ok {| Scantron.student :=
            {| Student.name := "DOE JANE"; Student.sid := "12345678" |};
          Scantron.form := Bubble.A; Scantron.responses := [] |} ∧
  Grader.grade
    {| Grader._keys := [{| Key.form := Bubble.A; Key.questions := [] |}] |}
    Grader.mk
    {| Scantron.student :=
         {| Student.name := "DOE JANE"; Student.sid := "12345678" |};
       Scantron.form := Bubble.A; Scantron.responses := [] |}
  = Raise ValueError.
Proof.
  split.
  - intros form student. unfold Key.grade. simpl.
    rewrite bool_decide_eq_true_2 by reflexivity. reflexivity.
  - repeat split; vm_compute; reflexivity.
Qed.

(** ** The key list of the graders *)

Lemma add_key_cases (st : Grader.class_state) (self : Grader.t) (key : Key.t) :
  ((Key.form key ∈ forms (Grader._keys st)) ∧
   Grader.add_key st self key = (st, Raise AssertionError)) ∨
  ((Key.form key ∉ forms (Grader._keys st)) ∧
   Grader.add_key st self key =
     ({| Grader._keys := Grader._keys st ++ [key] |}, Ok tt)).
Proof.
  unfold Grader.add_key, Grader.keys, forms.
  destruct (bool_decide_reflect
              (Key.form key ∉ map Key.form (Grader._keys st))) as [Hn|Hn].
  - right. split; [exact Hn|reflexivity].
  - left. split; [|reflexivity].
    destruct (decide (Key.form key ∈ map Key.form (Grader._keys st)));
      [assumption|contradiction].
Qed.

(** A key whose form is already in the list stops the loop. *)
Lemma add_keys_known_form (keys : list Key.t) :
  ∀ (st : Grader.class_state) (self : Grader.t) (key : Key.t),
    key ∈ keys → Key.form key ∈ forms (Grader._keys st) →
    ∃ st', Grader.add_keys st self keys = (st', Raise AssertionError).
Proof.
  induction keys as [|k keys IH]; intros st self key Hin Hform.
  - apply elem_of_nil in Hin. contradiction.
  - cbn [Grader.add_keys].
    destruct (add_key_cases st self k) as [[Hk ->]|[Hk ->]].
    + eexists; reflexivity.
    + apply elem_of_cons in Hin as [->|Hin]; [contradiction|].
      apply (IH _ self key Hin). cbn [Grader._keys]. unfold forms.
      rewrite map_app. apply elem_of_app. left. exact Hform.
Qed.

(** Two keys of one form in the argument stop the loop. *)
Lemma add_keys_duplicate (keys : list Key.t) :
  ∀ (st : Grader.class_state) (self : Grader.t),
    ¬ NoDup (forms keys) →
    ∃ st', Grader.add_keys st self keys = (st', Raise AssertionError).
Proof.
  induction keys as [|k keys IH]; intros st self Hdup.
  - exfalso. apply Hdup. constructor.
  - cbn [Grader.add_keys].
    destruct (add_key_cases st self k) as [[Hk ->]|[Hk ->]].
    + eexists; reflexivity.
    + destruct (decide (Key.form k ∈ forms keys)) as [Hin|Hnin].
      * unfold forms in Hin. apply list_elem_of_fmap in Hin as (k' & Hf & Hk').
        apply (add_keys_known_form keys _ self k' Hk').
        cbn [Grader._keys]. unfold forms. rewrite map_app, <- Hf.
        apply elem_of_app. right. left.
      * apply IH. intros Hnd. apply Hdup. unfold forms. simpl.
        constructor; assumption.
Qed.

(** The loop keeps the forms of the list distinct, however it ends. *)
Lemma add_keys_NoDup (keys : list Key.t) :
  ∀ (st : Grader.class_state) (self : Grader.t),
    NoDup (forms (Grader._keys st)) →
    NoDup (forms (Grader._keys (Grader.add_keys st self keys).1)).
Proof.
  induction keys as [|k keys IH]; intros st self Hnd; [exact Hnd|].
  cbn [Grader.add_keys].
  destruct (add_key_cases st self k) as [[Hk ->]|[Hk ->]]; [exact Hnd|].
  apply IH. cbn [Grader._keys]. unfold forms. rewrite map_app.
  apply NoDup_app. split; [exact Hnd|]. split.
  - intros f Hf Hf'. simpl in Hf'. apply list_elem_of_singleton in Hf'.
    subst f. contradiction.
  - simpl. apply NoDup_singleton.
Qed.

Lemma two_same_form_not_NoDup (keys : list Key.t) (i j : nat) (k1 k2 : Key.t) :
  i ≠ j → keys !! i = Some k1 → keys !! j = Some k2 →
  Key.form k1 = Key.form k2 → ¬ NoDup (forms keys).
Proof.
  intros Hij Hi Hj Hf Hnd. apply Hij.
  apply (proj1 (NoDup_alt (forms keys)) Hnd i j (Key.form k1)); unfold forms.
  - rewrite list_lookup_fmap, Hi. reflexivity.
  - rewrite list_lookup_fmap, Hj, Hf. reflexivity.
Qed.

Lemma new_NoDup (st : Grader.class_state) (keys : list Key.t) :
  NoDup (forms (Grader._keys st)) →
  NoDup (forms (Grader._keys (Grader.new st keys).1)).
Proof.
  intros Hnd. pose proof (add_keys_NoDup keys st Grader.mk Hnd) as H.
  unfold Grader.new.
  destruct (Grader.add_keys st Grader.mk keys) as [st' [u|e]]; exact H.
Qed.

Lemma constructions_NoDup (history : list (list Key.t)) :
  ∀ st : Grader.class_state,
    NoDup (forms (Grader._keys st)) →
    NoDup (forms (Grader._keys (constructions st history))).
Proof.
  induction history as [|keys history IH]; intros st Hnd; [exact Hnd|].
  simpl. apply IH, new_NoDup, Hnd.
Qed.

(** C8. Whatever the key list holds beforehand, [Grader(keys)] raises
    [AssertionError] when two keys of the argument have the same form; and
    every construction, failed or not, leaves a key list of distinct forms
    when it started from one.  So after any run of constructions from the
    empty list of the class definition, the key list that a grader reads
    never holds two keys of one form. *)
Theorem Grader_new_duplicate_forms :
  (∀ (st : Grader.class_state) (keys : list Key.t)
     (i j : nat) (k1 k2 : Key.t),
      i ≠ j → keys !! i = Some k1 → keys !! j = Some k2 →
      Key.form k1 = Key.form k2 →
      ∃ st', Grader.new st keys = (st', Raise AssertionError)) ∧
  (∀ (st : Grader.class_state) (keys : list Key.t),
      NoDup (forms (Grader._keys st)) →
      NoDup (forms (Grader._keys (Grader.new st keys).1))) ∧
  (∀ (st st' : Grader.class_state) (keys : list Key.t) (g : Grader.t),
      NoDup (forms (Grader._keys st)) →
      Grader.new st keys = (st', Ok g) →
      NoDup (forms (Grader.keys st' g))) ∧
  (∀ history : list (list Key.t),
      NoDup (forms (Grader._keys (constructions Grader.initial history)))).
Proof.
  split; [|split; [|split]].
  - intros st keys i j k1 k2 Hij Hi Hj Hf.
    destruct (add_keys_duplicate keys st Grader.mk) as [st' Hst'].
    { eapply two_same_form_not_NoDup; eauto. }
    exists st'. unfold Grader.new. rewrite Hst'. reflexivity.
  - exact new_NoDup.
  - intros st st' keys g Hnd Hnew.
    pose proof (add_keys_NoDup keys st Grader.mk Hnd) as H.
    unfold Grader.new in Hnew.
    destruct (Grader.add_keys st Grader.mk keys) as [st'' [u|e]];
      [|discriminate].
    injection Hnew as <- _. exact H.
  - intros history. apply constructions_NoDup. constructor.
Qed.

(** The theorem at three keys of forms A, B, A. *)
Lemma Grader_new_duplicate_forms_witness :
  ∃ st', Grader.new Grader.initial [key_A []; key_B []; key_A []]
         = (st', Raise AssertionError).
Proof.
  apply (proj1 Grader_new_duplicate_forms Grader.initial
           [key_A []; key_B []; key_A []] 0%nat 2%nat (key_A []) (key_A [])).
  - lia.
  - reflexivity.
  - reflexivity.
  - reflexivity.
Defined.

(** C2, at the input where the code departs from it.  The graders share one
    key list: after a grader for form A, the construction of a grader for
    form B alone adds the key for B to the keys of the first grader, both
    graders then read the same two keys, and a second grader for form A
    cannot be constructed at all. *)
Theorem Grader_keys_shared :
  ∀ qa qb : list Rubric.t,
    Grader.new Grader.initial [key_A qa] =
      ({| Grader._keys := [key_A qa] |}, Ok Grader.mk) ∧
    Grader.keys {| Grader._keys := [key_A qa] |} Grader.mk = [key_A qa] ∧
    Grader.new {| Grader._keys := [key_A qa] |} [key_B qb] =
      ({| Grader._keys := [key_A qa; key_B qb] |}, Ok Grader.mk) ∧
    Grader.keys {| Grader._keys := [key_A qa; key_B qb] |} Grader.mk =
      [key_A qa; key_B qb] ∧
    Grader.new {| Grader._keys := [key_A qa] |} [key_A qa] =
      ({| Grader._keys := [key_A qa] |}, Raise AssertionError).
Proof.
  intros qa qb. repeat split.
Qed.

(** ** Rows *)

Lemma getitem_lookup {T} (l : list T) (i : Z) (x : T) :
  0 <= i → l !! Z.to_nat i = Some x → Seq.getitem l i = Ok x.
Proof.
  intros Hi Hx. unfold Seq.getitem. cbv zeta.
  pose proof (lookup_lt_Some _ _ _ Hx) as Hlt.
  destruct (i <? 0) eqn:Hneg; [apply Z.ltb_lt in Hneg; lia|].
  rewrite Hneg.
  destruct (Z.of_nat (length l) <=? i) eqn:Hlen;
    [apply Z.leb_le in Hlen; lia|].
  simpl. rewrite Hx. reflexivity.
Qed.

Lemma getitem_short {T} (l : list T) (i : Z) :
  Z.of_nat (length l) <= i → Seq.getitem l i = Raise IndexError.
Proof.
  intros Hi. unfold Seq.getitem. cbv zeta.
  destruct (i <? 0) eqn:Hneg; [apply Z.ltb_lt in Hneg; lia|].
  rewrite Hneg.
  rewrite (proj2 (Z.leb_le (Z.of_nat (length l)) i)) by lia. reflexivity.
Qed.

(** The slice of the question fields: the first [n] fields from index 4 on,
    or all of them when there are fewer. *)
Lemma slice_questions {T} (f0 f1 f2 f3 : T) (rest : list T) (n : Z) :
  0 <= n →
  Seq.slice (f0 :: f1 :: f2 :: f3 :: rest) 4 (4 + n) = take (Z.to_nat n) rest.
Proof.
  intros Hn. unfold Seq.slice, Seq.clamp.
  set (len := Z.of_nat (length (f0 :: f1 :: f2 :: f3 :: rest))).
  assert (Hlen : len = 4 + Z.of_nat (length rest))
    by (unfold len; cbn [length]; lia).
  rewrite (proj2 (Z.ltb_ge 4 0)) by lia.
  rewrite (proj2 (Z.ltb_ge (4 + n) 0)) by lia.
  replace (Z.min 4 len) with 4 by lia.
  change (drop (Z.to_nat 4) (f0 :: f1 :: f2 :: f3 :: rest)) with rest.
  destruct (Z.le_gt_cases (4 + n) len) as [Hle|Hgt].
  - replace (Z.min (4 + n) len) with (4 + n) by lia.
    f_equal. lia.
  - replace (Z.min (4 + n) len) with len by lia.
    rewrite !take_ge by lia. reflexivity.
Qed.

Lemma Scantron_parse_fields (f0 f1 f2 f3 : string) (rest : list string) (n : Z) :
  Str.int f3 = Ok n → 0 <= n →
  Scantron.parse (f0 :: f1 :: f2 :: f3 :: rest) =
    (form ← Bubble.parse f0;
     responses ← mapM Response.parse (take (Z.to_nat n) rest);
     Ok {| Scantron.student := Student.new f1 f2;
           Scantron.form := form;
           Scantron.responses := responses |}).
Proof.
  intros Hint Hn. unfold Scantron.parse.
  rewrite (getitem_lookup _ 3 f3), (getitem_lookup _ 1 f1),
    (getitem_lookup _ 2 f2), (getitem_lookup _ 0 f0) by (reflexivity || lia).
  cbn [mbind result_bind]. rewrite Hint. cbn [mbind result_bind].
  rewrite slice_questions by assumption. reflexivity.
Qed.

Lemma Key_parse_fields (f0 f1 f2 f3 : string) (rest : list string) (n : Z) :
  Str.int f3 = Ok n → 0 <= n →
  Key.parse (f0 :: f1 :: f2 :: f3 :: rest) =
    (form ← Bubble.parse f0;
     questions ← mapM Rubric.parse (take (Z.to_nat n) rest);
     Ok {| Key.form := form; Key.questions := questions |}).
Proof.
  intros Hint Hn. unfold Key.parse.
  rewrite (getitem_lookup _ 3 f3), (getitem_lookup _ 0 f0)
    by (reflexivity || lia).
  cbn [mbind result_bind]. rewrite Hint. cbn [mbind result_bind].
  rewrite slice_questions by assumption. reflexivity.
Qed.

(** The counterexample to C1 as stated: rows that declare more questions
    than they hold parse without raising, to a scantron with one response
    where three are declared and to a key with one rubric where two are. *)
Lemma parse_short_row :
  Scantron.parse ["A"; "DOE JANE"; "12345678"; "3"; "1"] =
    Ok {| Scantron.student :=
            {| Student.name := "DOE JANE"; Student.sid := "12345678" |};
          Scantron.form := Bubble.A;
          Scantron.responses := [{| Response.bubbles := [Bubble.A] |}] |} ∧
  Key.parse ["A"; "KEY"; ""; "2"; "B"] =
    Ok {| Key.form := Bubble.A;
          Key.questions :=
            [{| Rubric.items :=
                  [{| RubricItem.correct_response :=
                        {| Response.bubbles := [Bubble.B] |};
                      RubricItem.partial_credit := false |}];
                Rubric.points := 1;
                Rubric.extra_credit := false |}] |}.
Proof. split; vm_compute; reflexivity. Qed.

(** C1, amended.  In a row of at least four fields whose field 3 is an
    integer greater than the number of fields from index 4 on, the slice of
    the question fields is clamped to the fields present: [Scantron.parse]
    and [Key.parse] parse the form and every field present, and what they
    return then holds exactly as many questions as the row has fields from
    index 4 on.  A row of fewer than four fields raises [IndexError]. *)
Theorem parse_row_clamps_questions :
  (∀ (f0 f1 f2 f3 : string) (rest : list string) (n : Z),
      Str.int f3 = Ok n → Z.of_nat (length rest) < n →
      Scantron.parse (f0 :: f1 :: f2 :: f3 :: rest) =
        (form ← Bubble.parse f0;
         responses ← mapM Response.parse rest;
         Ok {| Scantron.student := Student.new f1 f2;
               Scantron.form := form;
               Scantron.responses := responses |}) ∧
      Key.parse (f0 :: f1 :: f2 :: f3 :: rest) =
        (form ← Bubble.parse f0;
         questions ← mapM Rubric.parse rest;
         Ok {| Key.form := form; Key.questions := questions |}) ∧
      (∀ scantron, Scantron.parse (f0 :: f1 :: f2 :: f3 :: rest) = Ok scantron →
                   length (Scantron.responses scantron) = length rest) ∧
      (∀ key, Key.parse (f0 :: f1 :: f2 :: f3 :: rest) = Ok key →
              length (Key.questions key) = length rest)) ∧
  (∀ row : list string,
      (length row < 4)%nat →
      Scantron.parse row = Raise IndexError ∧
      Key.parse row = Raise IndexError).
Proof.
  split.
  - intros f0 f1 f2 f3 rest n Hint Hn.
    assert (H0 : 0 <= n) by lia.
    rewrite (Scantron_parse_fields f0 f1 f2 f3 rest n Hint H0).
    rewrite (Key_parse_fields f0 f1 f2 f3 rest n Hint H0).
    rewrite take_ge by lia.
    split; [reflexivity|]. split; [reflexivity|]. split.
    + intros scantron Hs.
      destruct (Bubble.parse f0) as [form|e]; [|discriminate].
      cbn [mbind result_bind] in Hs.
      destruct (mapM Response.parse rest) as [rs|e] eqn:Hrs; [|discriminate].
      injection Hs as <-. simpl. eapply mapM_result_length; eauto.
    + intros key Hk.
      destruct (Bubble.parse f0) as [form|e]; [|discriminate].
      cbn [mbind result_bind] in Hk.
      destruct (mapM Rubric.parse rest) as [qs|e] eqn:Hqs; [|discriminate].
      injection Hk as <-. simpl. eapply mapM_result_length; eauto.
  - intros row Hlen. unfold Scantron.parse, Key.parse.
    rewrite (getitem_short row 3) by lia. split; reflexivity.
Qed.

(** The theorem at a row that declares nine questions and holds two. *)
Lemma parse_row_clamps_questions_witness :
  Scantron.parse ["B"; "WANG AY"; "12345678"; "9"; "1"; "(2,3)"] =
    (form ← Bubble.parse "B";
     responses ← mapM Response.parse ["1"; "(2,3)"];
     Ok {| Scantron.student := Student.new "WANG AY" "12345678";
           Scantron.form := form;
           Scantron.responses := responses |}).
Proof.
  apply (proj1 parse_row_clamps_questions
           "B" "WANG AY" "12345678" "9" ["1"; "(2,3)"] 9).
  - reflexivity.
  - simpl. lia.
Defined.

(** ** Rubric texts *)

Lemma getitem_last {T} (l : list T) :
  Seq.getitem l (-1) =
    match last l with
    | Some x => Ok x
    | None => Raise IndexError
    end.
Proof.
  unfold Seq.getitem. cbv zeta. rewrite last_lookup.
  change (-1 <? 0) with true. cbv iota.
  destruct l as [|x l]; [reflexivity|].
  destruct (-1 + Z.of_nat (length (x :: l)) <? 0) eqn:Hneg;
    [apply Z.ltb_lt in Hneg; cbn [length] in Hneg; lia|].
  destruct (Z.of_nat (length (x :: l)) <=? -1 + Z.of_nat (length (x :: l)))
    eqn:Hlen; [apply Z.leb_le in Hlen; lia|].
  cbn [orb].
  replace (Z.to_nat (-1 + Z.of_nat (length (x :: l))))
    with (Init.Nat.pred (length (x :: l))) by (cbn [length]; lia).
  reflexivity.
Qed.

(** [Rubric.parse] by the number of tokens of its text: the first token is
    read as the points with three tokens, and with two tokens of which the
    last is not "E"; in every other case the points are 1 and the first
    token is the item sequence. *)
Lemma Rubric_parse_by_token_count (value : string) :
  Rubric.parse value =
    match Str.split value with
    | [] => Raise IndexError
    | [sequence] =>
        items ← mapM RubricItem.parse (Str.split_on "|" sequence);
        Ok {| Rubric.items := items; Rubric.points := 1;
              Rubric.extra_credit := String.eqb sequence "E" |}
    | [first; second] =>
        if String.eqb second "E" then
          items ← mapM RubricItem.parse (Str.split_on "|" first);
          Ok {| Rubric.items := items; Rubric.points := 1;
                Rubric.extra_credit := true |}
        else
          points ← Str.float first;
          items ← mapM RubricItem.parse (Str.split_on "|" second);
          Ok {| Rubric.items := items; Rubric.points := points;
                Rubric.extra_credit := false |}
    | [first; second; third] =>
        points ← Str.float first;
        items ← mapM RubricItem.parse (Str.split_on "|" second);
        Ok {| Rubric.items := items; Rubric.points := points;
              Rubric.extra_credit := String.eqb third "E" |}
    | first :: second :: third :: fourth :: more =>
        items ← mapM RubricItem.parse (Str.split_on "|" first);
        Ok {| Rubric.items := items; Rubric.points := 1;
              Rubric.extra_credit :=
                match last (fourth :: more) with
                | Some token => String.eqb token "E"
                | None => false
                end |}
    end.
Proof.
  unfold Rubric.parse. rewrite getitem_last.
  destruct (Str.split value) as [|p1 [|p2 [|p3 [|p4 more]]]]; try reflexivity.
  - cbn [last mbind result_bind length Nat.eqb orb andb].
    destruct (String.eqb p2 "E"); reflexivity.
  - rewrite !last_cons_cons.
    destruct (last (p4 :: more)) as [token|] eqn:Hlast; [reflexivity|].
    apply last_None in Hlast. discriminate.
Qed.

(** C3, at the input where the code departs from it.  The text "E" is one
    token, the item sequence whose only item is the answer E; it is parsed
    with extra credit, while the one-token text "D" is not. *)
Theorem Rubric_parse_lone_E :
  RubricItem.parse "E" =
    Ok {| RubricItem.correct_response := {| Response.bubbles := [Bubble.E] |};
          RubricItem.partial_credit := false |} ∧
  Rubric.parse "E" =
    Ok {| Rubric.items :=
            [{| RubricItem.correct_response :=
                  {| Response.bubbles := [Bubble.E] |};
                RubricItem.partial_credit := false |}];
          Rubric.points := 1;
          Rubric.extra_credit := true |} ∧
  Rubric.parse "D" =
    Ok {| Rubric.items :=
            [{| RubricItem.correct_response :=
                  {| Response.bubbles := [Bubble.D] |};
                RubricItem.partial_credit := false |}];
          Rubric.points := 1;
          Rubric.extra_credit := false |}.
Proof. repeat split; vm_compute; reflexivity. Qed.

Example Rubric_parse_points_items_marker :
  Rubric.parse "2 PAB|ABC E" = Ok rubric_PAB_or_ABC.
Proof. vm_compute. reflexivity. Qed.

(** * Further properties *)

(** ** The texts that parse to a bubble *)

Lemma of_letter_Some (c : ascii) (b : Bubble.t) :
  Bubble.of_letter c = Some b ↔ c = Bubble.value b.
Proof.
  split.
  - destruct c as [[] [] [] [] [] [] [] []]; vm_compute; intros [= <-];
      reflexivity.
  - intros ->. destruct b; reflexivity.
Qed.

Lemma of_value_Ok (v : string) (b : Bubble.t) :
  Bubble.of_value v = Ok b ↔ v = Str.of_char (Bubble.value b).
Proof.
  unfold Bubble.of_value, Str.of_char. split.
  - destruct v as [|c [|c' v]]; try discriminate.
    destruct (Bubble.of_letter c) as [b'|] eqn:Hc; [|discriminate].
    intros [= <-]. apply of_letter_Some in Hc. rewrite Hc. reflexivity.
  - intros ->. rewrite (proj2 (of_letter_Some _ b) eq_refl). reflexivity.
Qed.

Lemma of_chr_Ok (i : Z) (b : Bubble.t) :
  Bubble.of_chr i = Ok b ↔ i = Z.of_nat (nat_of_ascii (Bubble.value b)).
Proof.
  split.
  - unfold Bubble.of_chr.
    destruct ((i <? - 2 ^ 31) || (2 ^ 31 <=? i)); [discriminate|].
    destruct (i <? 0) eqn:Hneg; [discriminate|]. apply Z.ltb_ge in Hneg.
    destruct (1114112 <=? i); [discriminate|]. cbn [orb].
    destruct (256 <=? i) eqn:Hbig; [discriminate|]. apply Z.leb_gt in Hbig.
    intros Hv. apply of_value_Ok in Hv. injection Hv as Hv.
    rewrite <- Hv, nat_ascii_embedding by lia. lia.
  - intros ->. destruct b; vm_compute; reflexivity.
Qed.

Lemma letter_not_isdigit (b : Bubble.t) :
  Str.isdigit (Str.of_char (Bubble.value b)) = false.
Proof. destruct b; vm_compute; reflexivity. Qed.

Lemma value_code (b : Bubble.t) :
  Z.of_nat (nat_of_ascii (Bubble.value b)) =
    match b with
    | Bubble.A => 65 | Bubble.B => 66 | Bubble.C => 67
    | Bubble.D => 68 | Bubble.E => 69
    end.
Proof. destruct b; reflexivity. Qed.

Lemma BUBBLES_lookup (n : Z) (b : Bubble.t) :
  (1 <= n ∧ BUBBLES !! Z.to_nat (n - 1) = Some b) ↔
  Bubble.ord_A + (n - 1) = Z.of_nat (nat_of_ascii (Bubble.value b)).
Proof.
  split.
  - intros [Hn Hb].
    assert (Hlt : (Z.to_nat (n - 1) < 5)%nat)
      by (apply lookup_lt_Some in Hb; exact Hb).
    assert (Hn' : n = 1 ∨ n = 2 ∨ n = 3 ∨ n = 4 ∨ n = 5) by lia.
    destruct Hn' as [->|[->|[->|[->| ->]]]]; vm_compute in Hb;
      injection Hb as <-; vm_compute; reflexivity.
  - rewrite value_code. unfold Bubble.ord_A.
    destruct b; intros Hn;
      [assert (n = 1) by lia|assert (n = 2) by lia|assert (n = 3) by lia
      |assert (n = 4) by lia|assert (n = 5) by lia];
      subst n; split; (lia || reflexivity).
Qed.

(** X1. [Bubble.parse] returns a bubble for two kinds of text only: the
    bubble's own letter, and a text of decimal digits whose integer value
    is the 1-based position of the bubble in [BUBBLES] (so "3" and "003" both
    give C, and "0" and "6" give nothing). *)
Theorem Bubble_parse_accepts (value : string) (b : Bubble.t) :
  Bubble.parse value = Ok b ↔
    value = Str.of_char (Bubble.value b) ∨
    (Str.isdigit value = true ∧
     ∃ n : Z, Str.int value = Ok n ∧ 1 <= n ∧
              BUBBLES !! Z.to_nat (n - 1) = Some b).
Proof.
  unfold Bubble.parse. destruct (Str.isdigit value) eqn:Hd.
  - split.
    + destruct (Str.int value) as [n|e] eqn:Hint;
        [|destruct e; discriminate].
      cbn [mbind result_bind]. intros Hb. right. split; [reflexivity|].
      exists n. split; [reflexivity|]. apply BUBBLES_lookup, of_chr_Ok.
      destruct (Bubble.of_chr (Bubble.ord_A + (n - 1))) as [b'|e];
        [exact Hb|destruct e; discriminate].
    + intros [->|(_ & n & Hint & Hn & Hb)].
      * rewrite letter_not_isdigit in Hd. discriminate.
      * rewrite Hint. cbn [mbind result_bind].
        rewrite (proj2 (of_chr_Ok _ b)); [reflexivity|].
        apply BUBBLES_lookup. auto.
  - rewrite of_value_Ok. split; [auto|].
    intros [Hv|(Hd' & _)]; [exact Hv|discriminate].
Qed.

(** ** Responses: parsing back, equality, exact grading *)

Lemma chars_of_chars (cs : list ascii) : Str.chars (Str.of_chars cs) = cs.
Proof. apply list_ascii_of_string_of_list_ascii. Qed.

Lemma value_kept (b : Bubble.t) : Response.kept (Bubble.value b) = true.
Proof. destruct b; reflexivity. Qed.

Lemma value_token (b : Bubble.t) :
  bad_digit (Bubble.value b) = false ∧ token_bubble (Bubble.value b) = Some b.
Proof. destruct b; split; reflexivity. Qed.

Lemma tokens_letters (l : list Bubble.t) :
  tokens (letters l) = map Bubble.value l.
Proof.
  unfold tokens, letters. rewrite chars_of_chars.
  induction l as [|b l IH]; [reflexivity|].
  cbn [map]. rewrite filter_cons_True by apply value_kept.
  rewrite IH. reflexivity.
Qed.

Lemma letters_tokens_good (l : list Bubble.t) :
  existsb bad_digit (map Bubble.value l) = false ∧
  omap token_bubble (map Bubble.value l) = l.
Proof.
  induction l as [|b l [IHb IHo]]; [split; reflexivity|].
  destruct (value_token b) as [Hb Ht].
  cbn [map existsb omap]. rewrite Hb, IHb. split; [reflexivity|].
  cbn [omap list_omap]. rewrite Ht.
  change (list_omap _ _ token_bubble (map Bubble.value l))
    with (omap token_bubble (map Bubble.value l)).
  rewrite IHo. reflexivity.
Qed.

Lemma bubble_set_new (l : list Bubble.t) :
  Response.bubble_set (Response.new l) = set_of_list l.
Proof.
  unfold Response.bubble_set, Response.new, Response.sorted, set_of_list.
  cbn [Response.bubbles]. apply set_eq. intros b.
  rewrite !elem_of_list_to_set, merge_sort_Permutation. reflexivity.
Qed.

Lemma bubble_set_new_of_set (s : gset Bubble.t) :
  Response.bubble_set (Response.new (list_of_set s)) = s.
Proof.
  rewrite bubble_set_new. unfold set_of_list, list_of_set.
  apply list_to_set_elements_L.
Qed.

(** A parsed response is the one built from its own bubble set. *)
Lemma Response_parse_of_set (s : string) (r : Response.t) :
  Response.parse s = Ok r →
  r = Response.new (list_of_set (Response.bubble_set r)).
Proof.
  rewrite Response_parse_tokens.
  destruct (existsb bad_digit (tokens s)); [discriminate|].
  intros [= <-]. rewrite bubble_set_new_of_set. reflexivity.
Qed.

Lemma NoDup_StronglySorted_lt (l : list Bubble.t) :
  StronglySorted Bubble_lt l → NoDup l.
Proof.
  induction 1 as [|b l Hl IH Hb]; constructor; [|exact IH].
  intros Hin. eapply Forall_forall in Hb; [|exact Hin].
  unfold Bubble_lt in Hb. lia.
Qed.

(** X2. Parsing the letters of a list of bubbles always succeeds and gives
    the bubble set of the list; the parsed response equals [Response(l)]
    exactly when the list has no repeated bubble, since the constructor
    keeps repetitions and the parser drops them. *)
Theorem Response_parse_letters (l : list Bubble.t) :
  ∃ r : Response.t,
    Response.parse (letters l) = Ok r ∧
    Response.bubble_set r = set_of_list l ∧
    (Response_eq r (Response.new l) = true ↔ NoDup l).
Proof.
  exists (Response.new (list_of_set (set_of_list l))).
  split.
  { rewrite Response_parse_tokens, tokens_letters.
    destruct (letters_tokens_good l) as [-> ->]. reflexivity. }
  split; [apply bubble_set_new_of_set|].
  unfold Response_eq. rewrite bool_decide_eq_true. split.
  - intros Heq.
    pose proof (Response_new_of_set (set_of_list l)) as Hs.
    rewrite Heq in Hs. apply NoDup_StronglySorted_lt in Hs.
    cbn [Response.new Response.bubbles] in Hs. unfold Response.sorted in Hs.
    rewrite merge_sort_Permutation in Hs. exact Hs.
  - intros Hnd. f_equal. apply Response_new_perm.
    unfold list_of_set, set_of_list. apply elements_list_to_set, Hnd.
Qed.

(** X3. Two parsed responses are equal under [__eq__] exactly when they
    select the same set of bubbles. *)
Theorem Response_eq_parsed (s s' : string) (r r' : Response.t) :
  Response.parse s = Ok r → Response.parse s' = Ok r' →
  (Response_eq r r' = true ↔
   Response.bubble_set r = Response.bubble_set r').
Proof.
  intros Hr Hr'. unfold Response_eq. rewrite bool_decide_eq_true. split.
  - intros Heq. unfold Response.bubble_set. rewrite Heq. reflexivity.
  - intros Heq. rewrite (Response_parse_of_set s r Hr).
    rewrite (Response_parse_of_set s' r' Hr'), Heq. reflexivity.
Qed.

(** The theorem at the texts "(2,4,5)" and "EDB". *)
Lemma Response_eq_parsed_witness :
  Response_eq {| Response.bubbles := [Bubble.B; Bubble.D; Bubble.E] |}
              {| Response.bubbles := [Bubble.B; Bubble.D; Bubble.E] |} = true ↔
  Response.bubble_set {| Response.bubbles := [Bubble.B; Bubble.D; Bubble.E] |}
  = Response.bubble_set {| Response.bubbles := [Bubble.B; Bubble.D; Bubble.E] |}.
Proof.
  apply (Response_eq_parsed "(2,4,5)" "EDB").
  - vm_compute. reflexivity.
  - vm_compute. reflexivity.
Defined.

(** X4. An item parsed without the partial-credit mark grades a parsed
    response 1 when the response equals the item's correct response under
    [__eq__], and 0 otherwise. *)
Theorem RubricItem_grade_exact
    (value text : string) (item : RubricItem.t) (response : Response.t) :
  RubricItem.parse value = Ok item →
  RubricItem.partial_credit item = false →
  Response.parse text = Ok response →
  RubricItem.grade item response =
    Ok (Num.Int
          (if Response_eq response (RubricItem.correct_response item)
           then 1 else 0)).
Proof.
  intros Hitem Hp Hresp. unfold RubricItem.grade. rewrite Hp.
  unfold RubricItem.parse in Hitem.
  destruct (Response.parse _) as [correct|e] eqn:Hc; [|discriminate].
  injection Hitem as <-. cbn [RubricItem.correct_response].
  pose proof (Response_parse_of_set _ _ Hc) as Hc'.
  pose proof (Response_parse_of_set _ _ Hresp) as Hr'.
  unfold Response_eq.
  destruct (decide (Response.bubble_set correct
                    = Response.bubble_set response)) as [Heq|Hne].
  - rewrite bool_decide_eq_true_2 by exact Heq.
    rewrite bool_decide_eq_true_2; [reflexivity|].
    rewrite Hc', Hr', Heq. reflexivity.
  - rewrite bool_decide_eq_false_2 by exact Hne.
    rewrite bool_decide_eq_false_2; [reflexivity|].
    intros Hb. apply Hne. unfold Response.bubble_set. rewrite Hb.
    reflexivity.
Qed.

(** The theorem at the item "AB" and the response "(2,1)". *)
Lemma RubricItem_grade_exact_witness :
  RubricItem.grade
    {| RubricItem.correct_response :=
         {| Response.bubbles := [Bubble.A; Bubble.B] |};
       RubricItem.partial_credit := false |}
    {| Response.bubbles := [Bubble.A; Bubble.B] |} =
    Ok (Num.Int
          (if Response_eq {| Response.bubbles := [Bubble.A; Bubble.B] |}
                (RubricItem.correct_response
                   {| RubricItem.correct_response :=
                        {| Response.bubbles := [Bubble.A; Bubble.B] |};
                      RubricItem.partial_credit := false |})
           then 1 else 0)).
Proof.
  apply (RubricItem_grade_exact "AB" "(2,1)").
  - vm_compute. reflexivity.
  - reflexivity.
  - vm_compute. reflexivity.
Defined.

(** ** Partial credit: full marks, no marks, and the exact grade *)

Lemma clamped_score_marks (k n : Z) :
  -5 <= k <= n → 1 <= n <= 5 →
  Num.eqb (Num.max2 (Num.Int 0)
             (Num.Float (Str.float_of_Z k / Str.float_of_Z n)))
          (Num.Int 1) = (k =? n) ∧
  Num.eqb (Num.max2 (Num.Int 0)
             (Num.Float (Str.float_of_Z k / Str.float_of_Z n)))
          (Num.Int 0) = (k <=? 0) ∧
  Num.leb (Num.Int 1)
          (Num.max2 (Num.Int 0)
             (Num.Float (Str.float_of_Z k / Str.float_of_Z n))) = (k =? n).
Proof.
  intros Hk Hn.
  assert (Hn' : n = 1 ∨ n = 2 ∨ n = 3 ∨ n = 4 ∨ n = 5) by lia.
  assert (Hk' : k = -5 ∨ k = -4 ∨ k = -3 ∨ k = -2 ∨ k = -1 ∨ k = 0 ∨
                k = 1 ∨ k = 2 ∨ k = 3 ∨ k = 4 ∨ k = 5) by lia.
  repeat (destruct Hn' as [->|Hn']; [|]);
    try subst n;
    repeat (destruct Hk' as [->|Hk']; [|]);
    try subst k; try lia; vm_compute; repeat split; reflexivity.
Qed.

(** All selected bubbles are correct ones and none is missing, in counts. *)
Lemma counts_full (cs rs : gset Bubble.t) :
  Z.of_nat (size (cs ∩ rs)) - Z.of_nat (size (rs ∖ cs)) = Z.of_nat (size cs)
  ↔ rs = cs.
Proof.
  split.
  - intros Hk.
    assert (Hc : (size (cs ∩ rs) <= size cs)%nat)
      by apply subseteq_size, intersection_subseteq_l.
    assert (Hfull : cs ∩ rs = cs).
    { apply set_subseteq_size_eq; [apply intersection_subseteq_l|lia]. }
    assert (Hnone : rs ∖ cs = ∅).
    { apply leibniz_equiv, size_empty_iff. lia. }
    apply set_eq. intros b. split; intros Hb.
    + destruct (decide (b ∈ cs)) as [Hin|Hout]; [exact Hin|].
      assert (b ∈ rs ∖ cs) by (apply elem_of_difference; auto).
      rewrite Hnone in *. set_solver.
    + rewrite <- Hfull in Hb. apply elem_of_intersection in Hb. tauto.
  - intros ->. rewrite intersection_idemp_L, difference_diag_L, size_empty.
    lia.
Qed.

Lemma counts_range (cs rs : gset Bubble.t) :
  cs ≠ ∅ →
  -5 <= Z.of_nat (size (cs ∩ rs)) - Z.of_nat (size (rs ∖ cs))
     <= Z.of_nat (size cs) ∧
  1 <= Z.of_nat (size cs) <= 5.
Proof.
  intros Hne.
  assert (size (cs ∩ rs) <= size cs)%nat
    by apply subseteq_size, intersection_subseteq_l.
  pose proof (size_bubble_set_le (rs ∖ cs)).
  pose proof (size_bubble_set_le cs).
  assert (size cs ≠ 0%nat)
    by (intros Hz; apply Hne, leibniz_equiv, size_empty_iff, Hz).
  lia.
Qed.

(** X5. With partial credit and a non-empty correct set, the grade is 1
    exactly when the response selects the correct set, and 0 exactly when
    the wrong selections are at least as many as the correct ones. *)
Theorem RubricItem_grade_partial_marks
    (item : RubricItem.t) (response : Response.t) (score : Num.t) :
  RubricItem.partial_credit item = true →
  Response.bubble_set (RubricItem.correct_response item) ≠ ∅ →
  RubricItem.grade item response = Ok score →
  (Num.eqb score (Num.Int 1) = true ↔
   Response.bubble_set response
   = Response.bubble_set (RubricItem.correct_response item)) ∧
  (Num.eqb score (Num.Int 0) = true ↔
   (size (Response.bubble_set (RubricItem.correct_response item)
          ∩ Response.bubble_set response)
    <= size (Response.bubble_set response
             ∖ Response.bubble_set (RubricItem.correct_response item)))%nat).
Proof.
  intros Hp Hne.
  rewrite (RubricItem_grade_partial_cases item response Hp).
  rewrite bool_decide_eq_false_2 by assumption. intros [= <-].
  set (cs := Response.bubble_set (RubricItem.correct_response item)) in *.
  set (rs := Response.bubble_set response).
  destruct (counts_range cs rs Hne) as [Hk Hn].
  destruct (clamped_score_marks _ _ Hk Hn) as (-> & -> & _).
  split.
  - rewrite Z.eqb_eq. apply counts_full.
  - rewrite Z.leb_le. lia.
Qed.

(** The theorem at the item PABC and the response A, B: two thirds. *)
Lemma RubricItem_grade_partial_marks_witness :
  (Num.eqb (Num.Float (2 / 3)) (Num.Int 1) = true ↔
   Response.bubble_set (Response.new [Bubble.A; Bubble.B])
   = Response.bubble_set
       (RubricItem.correct_response
          {| RubricItem.correct_response :=
               Response.new [Bubble.A; Bubble.B; Bubble.C];
             RubricItem.partial_credit := true |})) ∧
  (Num.eqb (Num.Float (2 / 3)) (Num.Int 0) = true ↔
   (size (Response.bubble_set
            (RubricItem.correct_response
               {| RubricItem.correct_response :=
                    Response.new [Bubble.A; Bubble.B; Bubble.C];
                  RubricItem.partial_credit := true |})
          ∩ Response.bubble_set (Response.new [Bubble.A; Bubble.B]))
    <= size (Response.bubble_set (Response.new [Bubble.A; Bubble.B])
             ∖ Response.bubble_set
                 (RubricItem.correct_response
                    {| RubricItem.correct_response :=
                         Response.new [Bubble.A; Bubble.B; Bubble.C];
                       RubricItem.partial_credit := true |})))%nat).
Proof.
  apply (RubricItem_grade_partial_marks
           {| RubricItem.correct_response :=
                Response.new [Bubble.A; Bubble.B; Bubble.C];
              RubricItem.partial_credit := true |}
           (Response.new [Bubble.A; Bubble.B])).
  - reflexivity.
  - vm_compute. discriminate.
  - vm_compute. reflexivity.
Defined.

(** X6. Partial credit never scores below exact matching: for one correct
    response, not empty, both gradings return and the exact grade is at most
    the partial-credit grade. *)
Theorem partial_credit_at_least_exact
    (correct response : Response.t) :
  Response.bubble_set correct ≠ ∅ →
  ∃ partial exact : Num.t,
    RubricItem.grade
      {| RubricItem.correct_response := correct;
         RubricItem.partial_credit := true |} response = Ok partial ∧
    RubricItem.grade
      {| RubricItem.correct_response := correct;
         RubricItem.partial_credit := false |} response = Ok exact ∧
    Num.leb exact partial = true.
Proof.
  intros Hne.
  rewrite RubricItem_grade_partial_cases by reflexivity.
  cbn [RubricItem.correct_response].
  rewrite bool_decide_eq_false_2 by assumption.
  unfold RubricItem.grade.
  cbn [RubricItem.partial_credit RubricItem.correct_response].
  set (cs := Response.bubble_set correct) in *.
  set (rs := Response.bubble_set response).
  eexists _, _. split; [reflexivity|]. split; [reflexivity|].
  destruct (counts_range cs rs Hne) as [Hk Hn].
  destruct (bool_decide_reflect (cs = rs)) as [Heq|Hneq].
  - destruct (clamped_score_marks _ _ Hk Hn) as (_ & _ & ->).
    apply Z.eqb_eq, counts_full. congruence.
  - apply (clamped_score_bounds _ _ Hk Hn).
Qed.

(** The theorem at the correct response A, B and the response A. *)
Lemma partial_credit_at_least_exact_witness :
  ∃ partial exact : Num.t,
    RubricItem.grade
      {| RubricItem.correct_response := Response.new [Bubble.A; Bubble.B];
         RubricItem.partial_credit := true |}
      (Response.new [Bubble.A]) = Ok partial ∧
    RubricItem.grade
      {| RubricItem.correct_response := Response.new [Bubble.A; Bubble.B];
         RubricItem.partial_credit := false |}
      (Response.new [Bubble.A]) = Ok exact ∧
    Num.leb exact partial = true.
Proof.
  apply (partial_credit_at_least_exact
           (Response.new [Bubble.A; Bubble.B]) (Response.new [Bubble.A])).
  vm_compute. discriminate.
Defined.

(** ** Students: whitespace normalisation and validity *)

Lemma lstrip_spec (cs : list ascii) :
  ∃ ws : list ascii,
    cs = (ws ++ Str.lstrip_chars cs)%list ∧
    Forall (fun c => Str.char_isspace c = true) ws ∧
    (∀ c cs', Str.lstrip_chars cs = c :: cs' → Str.char_isspace c = false).
Proof.
  induction cs as [|c cs (ws & Hcs & Hws & Hhead)].
  - exists []. split; [reflexivity|]. split; [constructor|]. discriminate.
  - cbn [Str.lstrip_chars]. destruct (Str.char_isspace c) eqn:Hc.
    + exists (c :: ws). split; [simpl; congruence|].
      split; [constructor; assumption|exact Hhead].
    + exists []. split; [reflexivity|]. split; [constructor|].
      intros c' cs' [= <- _]. exact Hc.
Qed.

Lemma lstrip_id (cs : list ascii) :
  (∀ c cs', cs = c :: cs' → Str.char_isspace c = false) →
  Str.lstrip_chars cs = cs.
Proof.
  destruct cs as [|c cs]; [reflexivity|]. intros Hhead.
  cbn [Str.lstrip_chars]. rewrite (Hhead c cs eq_refl). reflexivity.
Qed.

(** What [strip] removes: whitespace before and whitespace after. *)
Lemma strip_chars_spec (cs : list ascii) :
  ∃ before after : list ascii,
    cs = (before ++ Str.strip_chars cs ++ after)%list ∧
    Forall (fun c => Str.char_isspace c = true) before ∧
    Forall (fun c => Str.char_isspace c = true) after ∧
    trimmed (Str.strip_chars cs).
Proof.
  unfold Str.strip_chars.
  destruct (lstrip_spec cs) as (ws1 & Hcs & Hws1 & Hhead1).
  set (front := Str.lstrip_chars cs) in *.
  destruct (lstrip_spec (rev front)) as (ws2 & Hrev & Hws2 & Hhead2).
  set (back := Str.lstrip_chars (rev front)) in *.
  assert (Hfront : front = (rev back ++ rev ws2)%list).
  { rewrite <- rev_app_distr, <- Hrev, rev_involutive. reflexivity. }
  exists ws1, (rev ws2). split; [congruence|]. split; [exact Hws1|].
  split; [apply Forall_rev; exact Hws2|]. split.
  - intros c cs' Hc. apply (Hhead1 c (cs' ++ rev ws2)%list).
    rewrite Hfront, Hc. reflexivity.
  - intros c cs' Hc. apply (Hhead2 c (rev cs')).
    rewrite <- (rev_involutive back), Hc, rev_app_distr. reflexivity.
Qed.

Lemma strip_chars_id (cs : list ascii) :
  trimmed cs → Str.strip_chars cs = cs.
Proof.
  intros [Hhead Hlast]. unfold Str.strip_chars.
  rewrite (lstrip_id cs Hhead). rewrite lstrip_id.
  - apply rev_involutive.
  - intros c cs' Hc. apply (Hlast c (rev cs')).
    rewrite <- (rev_involutive cs), Hc. reflexivity.
Qed.

Lemma split_go_spaces (ws cs : list ascii) :
  Forall (fun c => Str.char_isspace c = true) ws →
  Str.split_ws_go [] (ws ++ cs) = Str.split_ws_go [] cs.
Proof.
  induction 1 as [|c ws Hc Hws IH]; [reflexivity|].
  cbn [app Str.split_ws_go]. rewrite Hc. exact IH.
Qed.

Lemma split_go_trailing (cs ws cur : list ascii) :
  Forall (fun c => Str.char_isspace c = true) ws →
  Str.split_ws_go cur (cs ++ ws) = Str.split_ws_go cur cs.
Proof.
  intros Hws. revert cur. induction cs as [|c cs IH]; intros cur.
  - rewrite app_nil_l. destruct Hws as [|w ws Hw Hws]; [reflexivity|].
    cbn [Str.split_ws_go]. rewrite Hw.
    pose proof (split_go_spaces ws [] Hws) as Hnil.
    rewrite app_nil_r in Hnil. cbn [Str.split_ws_go] in Hnil.
    rewrite Hnil. destruct cur; reflexivity.
  - cbn [app Str.split_ws_go].
    destruct (Str.char_isspace c); [destruct cur|]; rewrite ?IH; reflexivity.
Qed.

(** [strip] before [split] changes nothing. *)
Lemma split_strip (s : string) : Str.split (Str.strip s) = Str.split s.
Proof.
  unfold Str.split, Str.strip. rewrite chars_of_chars.
  destruct (strip_chars_spec (Str.chars s)) as (ws1 & ws2 & Hs & H1 & H2 & _).
  rewrite Hs at 2.
  rewrite (split_go_spaces ws1 _ H1), (split_go_trailing _ ws2 [] H2).
  reflexivity.
Qed.

Lemma of_chars_chars (s : string) : Str.of_chars (Str.chars s) = s.
Proof. apply string_of_list_ascii_of_string. Qed.

Lemma split_go_words (cs cur : list ascii) :
  Forall (fun c => Str.char_isspace c = false) cur →
  Forall word (Str.split_ws_go cur cs).
Proof.
  assert (Hword : ∀ cur : list ascii,
             cur ≠ [] → Forall (fun c => Str.char_isspace c = false) cur →
             word (Str.of_chars (rev cur))).
  { intros cur' Hne Hcur'. split.
    - intros Hempty. apply (f_equal Str.chars) in Hempty.
      rewrite chars_of_chars in Hempty. apply Hne.
      rewrite <- (rev_involutive cur'), Hempty. reflexivity.
    - rewrite chars_of_chars. apply Forall_rev. exact Hcur'. }
  revert cur. induction cs as [|c cs IH]; intros cur Hcur.
  - cbn [Str.split_ws_go]. destruct cur as [|c' cur']; [constructor|].
    constructor; [apply Hword; [discriminate|exact Hcur]|constructor].
  - cbn [Str.split_ws_go]. destruct (Str.char_isspace c) eqn:Hc.
    + destruct cur as [|c' cur']; [apply IH; constructor|].
      constructor; [apply Hword; [discriminate|exact Hcur]|].
      apply IH. constructor.
    + apply IH. constructor; assumption.
Qed.

Lemma split_go_word (p rest cur : list ascii) :
  Forall (fun c => Str.char_isspace c = false) p →
  Str.split_ws_go cur (p ++ rest) = Str.split_ws_go (rev p ++ cur) rest.
Proof.
  intros Hp. revert cur. induction Hp as [|c p Hc Hp IH]; intros cur.
  - reflexivity.
  - cbn [app Str.split_ws_go]. rewrite Hc, IH. cbn [rev].
    rewrite <- app_assoc. reflexivity.
Qed.

Lemma word_chars (p : string) :
  word p → ∃ c cs, rev (Str.chars p) = c :: cs.
Proof.
  intros [Hne _]. destruct (rev (Str.chars p)) as [|c cs] eqn:Hrev; [|eauto].
  exfalso. apply Hne. rewrite <- (of_chars_chars p).
  rewrite <- (rev_involutive (Str.chars p)), Hrev. reflexivity.
Qed.

(** Splitting words joined by single spaces gives the words back. *)
Lemma split_join (ps : list string) :
  Forall word ps → Str.split (Str.join " " ps) = ps.
Proof.
  unfold Str.split. induction 1 as [|p ps Hp Hps IH]; [reflexivity|].
  destruct (word_chars p Hp) as (c & cs & Hrev).
  destruct ps as [|q ps].
  - cbn [Str.join]. rewrite <- (app_nil_r (Str.chars p)).
    rewrite split_go_word by apply Hp. rewrite app_nil_r, Hrev.
    cbn [Str.split_ws_go]. rewrite <- Hrev, rev_involutive, of_chars_chars.
    reflexivity.
  - change (Str.join " " (p :: q :: ps))
      with (p ++ " " ++ Str.join " " (q :: ps))%string.
    rewrite !chars_app. rewrite split_go_word by apply Hp.
    rewrite app_nil_r, Hrev.
    change (Str.chars " ") with [" "%char].
    cbn [app Str.split_ws_go].
    change (Str.char_isspace " ") with true. cbv iota.
    rewrite <- Hrev, rev_involutive, of_chars_chars, IH. reflexivity.
Qed.

(** X7. Building a student from the name and sid of a student gives the
    same student: the name is the words of the given name joined by single
    spaces, whether or not the name is stripped first, and the sid neither
    starts nor ends with whitespace. *)
Theorem Student_new_idempotent (name sid : string) :
  Student.new (Student.name (Student.new name sid))
              (Student.sid (Student.new name sid))
  = Student.new name sid ∧
  Student.name (Student.new name sid) = Str.join " " (Str.split name) ∧
  Forall word (Str.split name) ∧
  trimmed (Str.chars (Student.sid (Student.new name sid))).
Proof.
  assert (Hwords : Forall word (Str.split name))
    by (apply split_go_words; constructor).
  assert (Htrim : trimmed (Str.chars (Str.strip sid))).
  { unfold Str.strip. rewrite chars_of_chars.
    destruct (strip_chars_spec (Str.chars sid)) as (_ & _ & _ & _ & _ & H).
    exact H. }
  unfold Student.new. cbn [Student.name Student.sid].
  rewrite !split_strip, (split_join _ Hwords).
  split; [|auto].
  f_equal. unfold Str.strip at 1.
  rewrite (strip_chars_id _ Htrim). apply of_chars_chars.
Qed.

Lemma strip_trimmed (sid : string) :
  trimmed (Str.chars (Str.strip sid)).
Proof.
  unfold Str.strip. rewrite chars_of_chars.
  destruct (strip_chars_spec (Str.chars sid)) as (_ & _ & _ & _ & _ & H).
  exact H.
Qed.

Lemma length_String (s : string) : String.length s = length (Str.chars s).
Proof. induction s as [|c s IH]; simpl; [reflexivity|]. rewrite IH. reflexivity. Qed.

(** X8. A constructed student is valid exactly when the normalised name is
    not empty and the stripped sid is eight decimal digits; the sid pattern
    would also accept a newline after the digits, which the stripping in the
    constructor rules out. *)
Theorem Student_is_valid_iff (name sid : string) :
  Student.is_valid (Student.new name sid) = true ↔
    Student.name (Student.new name sid) ≠ "" ∧
    length (Str.chars (Student.sid (Student.new name sid))) = 8%nat ∧
    Forall (fun c => Str.is_decimal c = true)
           (Str.chars (Student.sid (Student.new name sid))).
Proof.
  destruct (strip_trimmed sid) as [Hhead Hlast].
  unfold Student.is_valid, Student.sid_matches.
  set (st := Student.new name sid) in *.
  set (cs := Str.chars (Student.sid st)) in *.
  rewrite !andb_true_iff, Nat.ltb_lt, Nat.eqb_eq, forallb_forall.
  rewrite length_String. split.
  - intros [Hname [[Hdec Hlen] Hrest]]. split.
    { intros Hempty. rewrite Hempty in Hname. simpl in Hname. lia. }
    assert (Hdrop : drop 8 cs = []).
    { destruct (drop 8 cs) as [|c [|c' rest]] eqn:Hd;
        [reflexivity| |discriminate].
      apply Ascii.eqb_eq in Hrest. subst c.
      assert (Hcs : cs = (take 8 cs ++ [ascii_of_nat 10])%list)
        by (rewrite <- Hd; symmetry; apply take_drop).
      pose proof (Hlast _ _ Hcs) as Hsp. vm_compute in Hsp. discriminate. }
    assert (Hcs : take 8 cs = cs).
    { rewrite <- (take_drop 8 cs) at 2. rewrite Hdrop, app_nil_r.
      reflexivity. }
    rewrite Hcs in *. split; [exact Hlen|].
    apply Forall_forall. intros c Hc. apply Hdec, list_elem_of_In, Hc.
  - intros (Hname & Hlen & Hdec).
    assert (Hcs : take 8 cs = cs) by (apply take_ge; lia).
    split.
    { destruct (Str.chars (Student.name st)) as [|c rest] eqn:Hn;
        [|simpl; lia].
      exfalso. apply Hname. rewrite <- (of_chars_chars (Student.name st)), Hn.
      reflexivity. }
    rewrite Hcs. split.
    + split; [|exact Hlen]. intros c Hc.
      eapply Forall_forall in Hdec; [exact Hdec|].
      apply list_elem_of_In, Hc.
    + rewrite drop_ge by lia. reflexivity.
Qed.

(** ** Lists of results *)

Lemma mapM_result_Ok {X Y} (f : X -> result Y) (l : list X) (k : list Y) :
  mapM f l = Ok k ↔ Forall2 (fun x y => f x = Ok y) l k.
Proof.
  revert k. induction l as [|x l IH]; intros k; cbn [mapM].
  - split; [intros [= <-]; constructor|].
    intros H. apply Forall2_nil_inv_l in H. subst k. reflexivity.
  - split.
    + destruct (f x) as [y|e] eqn:Hx; [|discriminate].
      cbn [mbind result_bind].
      destruct (mapM f l) as [k'|e] eqn:Hl; [|discriminate].
      intros [= <-]. constructor; [exact Hx|]. apply IH. reflexivity.
    + intros H. apply Forall2_cons_inv_l in H as (y & k' & Hx & Hl & ->).
      rewrite Hx. cbn [mbind result_bind].
      rewrite (proj2 (IH _) Hl). reflexivity.
Qed.

Lemma mapM_result_Raise {X Y} (f : X -> result Y) (l : list X) (e : exn) :
  mapM f l = Raise e → ∃ x, x ∈ l ∧ f x = Raise e.
Proof.
  induction l as [|x l IH]; cbn [mapM]; [discriminate|].
  destruct (f x) as [y|e'] eqn:Hx.
  - cbn [mbind result_bind]. destruct (mapM f l) as [k|e'']; [discriminate|].
    intros [= <-]. destruct (IH eq_refl) as (x' & Hin & Hf).
    exists x'. split; [right; exact Hin|exact Hf].
  - intros [= <-]. exists x. split; [left|exact Hx].
Qed.

Lemma mapM_result_app {X Y} (f : X -> result Y) (l1 l2 : list X) :
  mapM f (l1 ++ l2)%list =
    (k1 ← mapM f l1; k2 ← mapM f l2; Ok (k1 ++ k2)%list).
Proof.
  induction l1 as [|x l1 IH]; cbn [app mapM].
  - cbn [mbind result_bind mret result_ret].
    destruct (mapM f l2); reflexivity.
  - destruct (f x) as [y|e]; [|reflexivity]. cbn [mbind result_bind].
    rewrite IH. destruct (mapM f l1) as [k1|e]; [|reflexivity].
    cbn [mbind result_bind]. destruct (mapM f l2); reflexivity.
Qed.

(** ** Grading with a key: the assertions and the totals *)

Lemma RubricItem_grade_error
    (item : RubricItem.t) (response : Response.t) (e : exn) :
  RubricItem.grade item response = Raise e → e = ZeroDivisionError.
Proof.
  destruct (RubricItem.partial_credit item) eqn:Hp.
  - rewrite (RubricItem_grade_partial_cases item response Hp).
    destruct (bool_decide _); [|discriminate]. intros [= <-]. reflexivity.
  - unfold RubricItem.grade. rewrite Hp. discriminate.
Qed.

Lemma Rubric_grade_error (rubric : Rubric.t) (response : Response.t) (e : exn) :
  Rubric.grade rubric response = Raise e →
  e = ZeroDivisionError ∨ e = ValueError.
Proof.
  unfold Rubric.grade.
  destruct (mapM _ (Rubric.items rubric)) as [grades|e'] eqn:Hm.
  - cbn [mbind result_bind]. destruct grades as [|g grades]; [|discriminate].
    intros [= <-]. right. reflexivity.
  - intros [= <-]. apply mapM_result_Raise in Hm as (item & _ & Hitem).
    left. eapply RubricItem_grade_error. exact Hitem.
Qed.

(** X9. [Key.grade] raises [AssertionError] exactly when the forms differ
    or the number of responses differs from the number of questions; the
    grading that follows the assertions raises other exceptions only. *)
Theorem Key_grade_assertion (key : Key.t) (scantron : Scantron.t) :
  Key.grade key scantron = Raise AssertionError ↔
    Scantron.form scantron ≠ Key.form key ∨
    length (Scantron.responses scantron) ≠ length (Key.questions key).
Proof.
  unfold Key.grade, py_assert.
  destruct (bool_decide_reflect (Scantron.form scantron = Key.form key))
    as [Hf|Hf]; cbn [mbind result_bind].
  - destruct (Nat.eqb_spec (length (Scantron.responses scantron))
                (length (Key.questions key))) as [Hl|Hl];
      cbn [mbind result_bind].
    + split; [|intros [H|H]; contradiction].
      destruct (mapM _ _) as [scorings|e] eqn:Hm; [discriminate|].
      intros [= ->]. exfalso.
      apply mapM_result_Raise in Hm as ([rubric response] & _ & Hg).
      apply Rubric_grade_error in Hg as [Hg|Hg]; discriminate.
    + split; [intros _; right; exact Hl|reflexivity].
  - split; [intros _; left; exact Hf|reflexivity].
Qed.

Lemma find_unique (ks : list Key.t) (key : Key.t) :
  NoDup (forms ks) → key ∈ ks → Grader.find (Key.form key) ks = Ok key.
Proof.
  induction ks as [|k ks IH]; intros Hnd Hin.
  - apply elem_of_nil in Hin. contradiction.
  - unfold forms in Hnd. cbn [map] in Hnd.
    apply NoDup_cons in Hnd as [Hk Hnd]. cbn [Grader.find].
    apply elem_of_cons in Hin as [->|Hin].
    + rewrite bool_decide_eq_true_2 by reflexivity. reflexivity.
    + rewrite bool_decide_eq_false_2; [apply IH; assumption|].
      intros Heq. apply Hk. rewrite Heq.
      apply list_elem_of_fmap. exists key. split; [reflexivity|exact Hin].
Qed.

(** X10. A scantron is graded with the key of its form: when the grader's
    keys have distinct forms and hold a key of the scantron's form with as
    many questions, at least one, as the scantron has responses, and every
    rubric grades its response, [Grader.grade] returns the student and form
    of the scantron with the sum of the points earned and the sum of the
    points possible. *)
Theorem Grader_grade_totals
    (st : Grader.class_state) (grader : Grader.t) (scantron : Scantron.t)
    (key : Key.t) (scorings : list (Num.t * Num.t)) :
  NoDup (forms (Grader.keys st grader)) →
  key ∈ Grader.keys st grader →
  Key.form key = Scantron.form scantron →
  length (Scantron.responses scantron) = length (Key.questions key) →
  Key.questions key ≠ [] →
  mapM (fun '(rubric, response) => Rubric.grade rubric response)
       (Key.zip (Key.questions key) (Scantron.responses scantron))
  = Ok scorings →
  Grader.grade st grader scantron =
    Ok {| ScantronGrade.student := Scantron.student scantron;
          ScantronGrade.form := Scantron.form scantron;
          ScantronGrade.points := Num.sum (map fst scorings);
          ScantronGrade.out_of := Num.sum (map snd scorings) |}.
Proof.
  intros Hnd Hin Hf Hl Hq Hm. unfold Grader.grade, Grader._find_key.
  rewrite <- Hf, (find_unique _ key Hnd Hin). cbn [mbind result_bind].
  rewrite (Key_grade_sums key scantron scorings (eq_sym Hf) Hl Hq Hm).
  reflexivity.
Qed.

(** The theorem at a grader with keys for forms A and B, the key of form A
    holding the extra-credit rubric "2 PAB|ABC E". *)
Lemma Grader_grade_totals_witness :
  Grader.grade
    {| Grader._keys := [key_A [rubric_PAB_or_ABC]; key_B []] |}
    Grader.mk scantron_ABC =
    Ok {| ScantronGrade.student := Scantron.student scantron_ABC;
          ScantronGrade.form := Scantron.form scantron_ABC;
          ScantronGrade.points :=
            Num.sum (map fst [(Num.Float 2, Num.Int 0)]);
          ScantronGrade.out_of :=
            Num.sum (map snd [(Num.Float 2, Num.Int 0)]) |}.
Proof.
  apply (Grader_grade_totals
           {| Grader._keys := [key_A [rubric_PAB_or_ABC]; key_B []] |}
           Grader.mk scantron_ABC (key_A [rubric_PAB_or_ABC])
           [(Num.Float 2, Num.Int 0)]).
  - unfold forms. simpl. apply NoDup_cons. split; [|apply NoDup_singleton].
    intros Hin. apply list_elem_of_singleton in Hin. discriminate.
  - left.
  - reflexivity.
  - reflexivity.
  - simpl. discriminate.
  - vm_compute. reflexivity.
Defined.

(** ** Looking a key up, and grading a list of scantrons *)

Lemma find_first (form : Bubble.t) (ks : list Key.t) (key : Key.t) :
  Grader.find form ks = Ok key ↔
  ∃ before after : list Key.t,
    ks = (before ++ key :: after)%list ∧ Key.form key = form ∧
    form ∉ forms before.
Proof.
  induction ks as [|k ks IH]; cbn [Grader.find].
  - split; [discriminate|]. intros (before & after & Hks & _).
    destruct before; discriminate.
  - destruct (bool_decide_reflect (Key.form k = form)) as [Hk|Hk].
    + split.
      * intros [= <-]. exists [], ks. split; [reflexivity|].
        split; [exact Hk|]. apply not_elem_of_nil.
      * intros (before & after & Hks & Hf & Hnot).
        destruct before as [|k' before].
        -- injection Hks as -> _. reflexivity.
        -- injection Hks as -> _. exfalso. apply Hnot. unfold forms.
           cbn [map]. rewrite Hk. left.
    + rewrite IH. split.
      * intros (before & after & -> & Hf & Hnot).
        exists (k :: before), after. split; [reflexivity|].
        split; [exact Hf|]. unfold forms. cbn [map].
        apply not_elem_of_cons. split; [congruence|exact Hnot].
      * intros (before & after & Hks & Hf & Hnot).
        destruct before as [|k' before].
        -- injection Hks as -> _. contradiction.
        -- injection Hks as -> ->. exists before, after.
           split; [reflexivity|]. split; [exact Hf|].
           unfold forms in *. cbn [map] in Hnot.
           apply not_elem_of_cons in Hnot. tauto.
Qed.

Lemma find_missing (form : Bubble.t) (ks : list Key.t) :
  Grader.find form ks = Raise AssertionError ↔ form ∉ forms ks.
Proof.
  unfold forms. induction ks as [|k ks IH]; cbn [Grader.find map].
  - split; [intros _; apply not_elem_of_nil|reflexivity].
  - destruct (bool_decide_reflect (Key.form k = form)) as [Hk|Hk].
    + split; [discriminate|]. intros Hnot. exfalso. apply Hnot.
      rewrite Hk. left.
    + rewrite IH, not_elem_of_cons. split; [intros H; split; congruence|tauto].
Qed.

Lemma Grader_grade_identity
    (st : Grader.class_state) (grader : Grader.t) (scantron : Scantron.t)
    (graded : ScantronGrade.t) :
  Grader.grade st grader scantron = Ok graded →
  ScantronGrade.student graded = Scantron.student scantron ∧
  ScantronGrade.form graded = Scantron.form scantron ∧
  ∃ key : Key.t,
    Grader._find_key st grader (Scantron.form scantron) = Ok key ∧
    Key.grade key scantron =
      Ok [ScantronGrade.points graded; ScantronGrade.out_of graded].
Proof.
  unfold Grader.grade.
  destruct (Grader._find_key st grader (Scantron.form scantron))
    as [key|e]; [|discriminate].
  cbn [mbind result_bind].
  destruct (Key.grade key scantron) as [tuple|e] eqn:Hkey; [|discriminate].
  cbn [mbind result_bind].
  destruct tuple as [|p [|o [|x tuple]]]; try discriminate.
  cbn [Grader.unpack2 mbind result_bind]. intros [= <-].
  cbn [ScantronGrade.student ScantronGrade.form ScantronGrade.points
       ScantronGrade.out_of].
  split; [reflexivity|]. split; [reflexivity|]. exists key.
  split; [reflexivity|exact Hkey].
Qed.

(** X11. [Grader.grade] raises [AssertionError] when no key has the form of
    the scantron, whatever else the scantron holds; otherwise the key used is
    the first of that form in the key list, and a grade that is returned
    carries the student and the form of the scantron. *)
Theorem Grader_grade_key_lookup :
  (∀ (st : Grader.class_state) (grader : Grader.t) (scantron : Scantron.t),
      Scantron.form scantron ∉ forms (Grader.keys st grader) →
      Grader.grade st grader scantron = Raise AssertionError) ∧
  (∀ (st : Grader.class_state) (grader : Grader.t) (form : Bubble.t)
     (key : Key.t),
      Grader._find_key st grader form = Ok key ↔
      ∃ before after : list Key.t,
        Grader.keys st grader = (before ++ key :: after)%list ∧
        Key.form key = form ∧ form ∉ forms before) ∧
  (∀ (st : Grader.class_state) (grader : Grader.t) (scantron : Scantron.t)
     (graded : ScantronGrade.t),
      Grader.grade st grader scantron = Ok graded →
      ScantronGrade.student graded = Scantron.student scantron ∧
      ScantronGrade.form graded = Scantron.form scantron ∧
      ∃ key : Key.t,
        Grader._find_key st grader (Scantron.form scantron) = Ok key ∧
        Key.grade key scantron =
          Ok [ScantronGrade.points graded; ScantronGrade.out_of graded]).
Proof.
  split; [|split].
  - intros st grader scantron Hnot. unfold Grader.grade, Grader._find_key.
    rewrite (proj2 (find_missing _ _) Hnot). reflexivity.
  - intros st grader form key. apply find_first.
  - exact Grader_grade_identity.
Qed.

(** The first part of the theorem at a grader whose only key has form B and
    a scantron of form A. *)
Lemma Grader_grade_key_lookup_witness :
  Grader.grade {| Grader._keys := [key_B [rubric_PAB_or_ABC]] |}
    Grader.mk scantron_ABC = Raise AssertionError.
Proof.
  apply (proj1 Grader_grade_key_lookup
           {| Grader._keys := [key_B [rubric_PAB_or_ABC]] |}
           Grader.mk scantron_ABC).
  unfold forms. simpl. intros Hin. apply list_elem_of_singleton in Hin.
  discriminate.
Defined.

(** X12. [grade_all] returns the grades of the scantrons one for one and in
    their order, each the grade [Grader.grade] gives to that scantron alone,
    so the students and forms of the grades are those of the scantrons; and
    grading a list in two parts gives the two lists of grades in a row. *)
Theorem Grader_grade_all_in_order :
  (∀ (st : Grader.class_state) (grader : Grader.t)
     (scantrons : list Scantron.t) (grades : list ScantronGrade.t),
      Grader.grade_all st grader scantrons = Ok grades ↔
      Forall2 (fun scantron graded =>
                 Grader.grade st grader scantron = Ok graded)
        scantrons grades) ∧
  (∀ (st : Grader.class_state) (grader : Grader.t)
     (scantrons : list Scantron.t) (grades : list ScantronGrade.t),
      Grader.grade_all st grader scantrons = Ok grades →
      map ScantronGrade.student grades = map Scantron.student scantrons ∧
      map ScantronGrade.form grades = map Scantron.form scantrons) ∧
  (∀ (st : Grader.class_state) (grader : Grader.t)
     (first second : list Scantron.t),
      Grader.grade_all st grader (first ++ second)%list =
        (grades1 ← Grader.grade_all st grader first;
         grades2 ← Grader.grade_all st grader second;
         Ok (grades1 ++ grades2)%list)).
Proof.
  split; [|split].
  - intros st grader scantrons grades. apply mapM_result_Ok.
  - intros st grader scantrons grades Hall.
    apply mapM_result_Ok in Hall.
    induction Hall as [|scantron graded scantrons grades Hg Hall [IH1 IH2]];
      [split; reflexivity|].
    destruct (Grader_grade_identity st grader scantron graded Hg)
      as (Hs & Hf & _).
    cbn [map]. rewrite Hs, Hf, IH1, IH2. split; reflexivity.
  - intros st grader first second. apply mapM_result_app.
Qed.

(** ** The exceptions of [Rubric.parse] *)

Lemma split_go_nil (cs cur : list ascii) :
  Str.split_ws_go cur cs = [] ↔
  cur = [] ∧ Forall (fun c => Str.char_isspace c = true) cs.
Proof.
  revert cur. induction cs as [|c cs IH]; intros cur; cbn [Str.split_ws_go].
  - destruct cur as [|c' cur].
    + split; [intros _; split; [reflexivity|constructor]|reflexivity].
    + split; [discriminate|intros [H _]; discriminate].
  - destruct (Str.char_isspace c) eqn:Hc.
    + destruct cur as [|c' cur].
      * rewrite IH. split; intros [_ H]; split; try reflexivity.
        -- constructor; assumption.
        -- apply Forall_cons in H. tauto.
      * split; [discriminate|intros [H _]; discriminate].
    + rewrite IH. split; [intros [H _]; discriminate|].
      intros [_ H]. apply Forall_cons in H as [H _]. congruence.
Qed.

Lemma float_error (s : string) (e : exn) :
  Str.float s = Raise e → e = ValueError.
Proof.
  unfold Str.float. repeat case_match; intros [= <-]; reflexivity.
Qed.

Lemma Response_parse_error (s : string) (e : exn) :
  Response.parse s = Raise e → e = ValueError.
Proof.
  rewrite Response_parse_tokens.
  destruct (existsb bad_digit (tokens s)); congruence.
Qed.

Lemma RubricItem_parse_error (s : string) (e : exn) :
  RubricItem.parse s = Raise e → e = ValueError.
Proof.
  unfold RubricItem.parse.
  destruct (Response.parse _) as [r|e'] eqn:Hr; [discriminate|].
  intros [= <-]. eapply Response_parse_error. exact Hr.
Qed.

Lemma items_parse_error (sequence : string) (e : exn) :
  mapM RubricItem.parse (Str.split_on "|" sequence) = Raise e →
  e = ValueError.
Proof.
  intros Hm. apply mapM_result_Raise in Hm as (item & _ & Hitem).
  eapply RubricItem_parse_error. exact Hitem.
Qed.

(** X13. [Rubric.parse] raises [IndexError] exactly when its text is empty
    or all whitespace, and [ValueError] is the only other exception it
    raises. *)
Theorem Rubric_parse_errors (value : string) :
  (Rubric.parse value = Raise IndexError ↔
   Forall (fun c => Str.char_isspace c = true) (Str.chars value)) ∧
  (∀ e : exn,
      Rubric.parse value = Raise e → e = IndexError ∨ e = ValueError).
Proof.
  assert (Hblank : Str.split value = [] ↔
                   Forall (fun c => Str.char_isspace c = true)
                          (Str.chars value)).
  { unfold Str.split. rewrite split_go_nil. tauto. }
  assert (Hvalue : ∀ e, Str.split value ≠ [] →
                        Rubric.parse value = Raise e → e = ValueError).
  { intros e Hne. rewrite Rubric_parse_by_token_count.
    destruct (Str.split value) as [|p1 [|p2 [|p3 [|p4 more]]]];
      [contradiction| | | |].
    - destruct (mapM _ _) as [items|e'] eqn:Hm; [discriminate|].
      intros [= <-]. eapply items_parse_error; eauto.
    - destruct (String.eqb p2 "E").
      + destruct (mapM _ _) as [items|e'] eqn:Hm; [discriminate|].
        intros [= <-]. eapply items_parse_error; eauto.
      + destruct (Str.float p1) as [points|e'] eqn:Hf;
          [|intros [= <-]; eapply float_error; eauto].
        cbn [mbind result_bind].
        destruct (mapM _ _) as [items|e'] eqn:Hm; [discriminate|].
        intros [= <-]. eapply items_parse_error; eauto.
    - destruct (Str.float p1) as [points|e'] eqn:Hf;
        [|intros [= <-]; eapply float_error; eauto].
      cbn [mbind result_bind].
      destruct (mapM _ _) as [items|e'] eqn:Hm; [discriminate|].
      intros [= <-]. eapply items_parse_error; eauto.
    - destruct (mapM _ _) as [items|e'] eqn:Hm; [discriminate|].
      intros [= <-]. eapply items_parse_error; eauto. }
  split.
  - rewrite <- Hblank. split.
    + intros Hr. destruct (Str.split value) as [|p ps] eqn:Hs; [reflexivity|].
      assert (Hne : p :: ps ≠ []) by discriminate.
      discriminate (Hvalue IndexError Hne Hr).
    + intros Hs. rewrite Rubric_parse_by_token_count, Hs. reflexivity.
  - intros e Hr. destruct (Str.split value) as [|p ps] eqn:Hs.
    + left. rewrite Rubric_parse_by_token_count, Hs in Hr. congruence.
    + right. apply Hvalue; [discriminate|exact Hr].
Qed.

(** ** Rows: the declared count within the row, and a negative count *)

Lemma slice_questions_negative {T} (f0 f1 f2 f3 : T) (rest : list T) (n : Z) :
  -4 <= n < 0 → Seq.slice (f0 :: f1 :: f2 :: f3 :: rest) 4 (4 + n) = [].
Proof.
  intros Hn. unfold Seq.slice, Seq.clamp.
  set (len := Z.of_nat (length (f0 :: f1 :: f2 :: f3 :: rest))).
  assert (Hlen : len = 4 + Z.of_nat (length rest))
    by (unfold len; cbn [length]; lia).
  rewrite (proj2 (Z.ltb_ge 4 0)) by lia.
  rewrite (proj2 (Z.ltb_ge (4 + n) 0)) by lia.
  replace (Z.to_nat (Z.min (4 + n) len - Z.min 4 len)) with 0%nat by lia.
  reflexivity.
Qed.

Lemma Scantron_parse_slice (f0 f1 f2 f3 : string) (rest : list string) (n : Z) :
  Str.int f3 = Ok n →
  Scantron.parse (f0 :: f1 :: f2 :: f3 :: rest) =
    (form ← Bubble.parse f0;
     responses ← mapM Response.parse
                   (Seq.slice (f0 :: f1 :: f2 :: f3 :: rest) 4 (4 + n));
     Ok {| Scantron.student := Student.new f1 f2;
           Scantron.form := form;
           Scantron.responses := responses |}).
Proof.
  intros Hint. unfold Scantron.parse.
  rewrite (getitem_lookup _ 3 f3), (getitem_lookup _ 1 f1),
    (getitem_lookup _ 2 f2), (getitem_lookup _ 0 f0) by (reflexivity || lia).
  cbn [mbind result_bind]. rewrite Hint. reflexivity.
Qed.

Lemma Key_parse_slice (f0 f1 f2 f3 : string) (rest : list string) (n : Z) :
  Str.int f3 = Ok n →
  Key.parse (f0 :: f1 :: f2 :: f3 :: rest) =
    (form ← Bubble.parse f0;
     questions ← mapM Rubric.parse
                   (Seq.slice (f0 :: f1 :: f2 :: f3 :: rest) 4 (4 + n));
     Ok {| Key.form := form; Key.questions := questions |}).
Proof.
  intros Hint. unfold Key.parse.
  rewrite (getitem_lookup _ 3 f3), (getitem_lookup _ 0 f0)
    by (reflexivity || lia).
  cbn [mbind result_bind]. rewrite Hint. reflexivity.
Qed.

(** X14. When field 3 of a row is an integer from 0 to the number of fields
    that follow it, [Scantron.parse] and [Key.parse] read exactly that many
    fields from index 4 on and nothing of the fields after them, which may
    hold anything; and a count from -4 to -1 is not refused but read as no
    question at all. *)
Theorem parse_row_declared_count :
  (∀ (f0 f1 f2 f3 : string) (questions extra : list string),
      Str.int f3 = Ok (Z.of_nat (length questions)) →
      Scantron.parse (f0 :: f1 :: f2 :: f3 :: questions ++ extra)%list =
        (form ← Bubble.parse f0;
         responses ← mapM Response.parse questions;
         Ok {| Scantron.student := Student.new f1 f2;
               Scantron.form := form;
               Scantron.responses := responses |}) ∧
      Key.parse (f0 :: f1 :: f2 :: f3 :: questions ++ extra)%list =
        (form ← Bubble.parse f0;
         rubrics ← mapM Rubric.parse questions;
         Ok {| Key.form := form; Key.questions := rubrics |})) ∧
  (∀ (f0 f1 f2 f3 : string) (rest : list string) (n : Z),
      Str.int f3 = Ok n → -4 <= n < 0 →
      Scantron.parse (f0 :: f1 :: f2 :: f3 :: rest) =
        (form ← Bubble.parse f0;
         Ok {| Scantron.student := Student.new f1 f2;
               Scantron.form := form;
               Scantron.responses := [] |}) ∧
      Key.parse (f0 :: f1 :: f2 :: f3 :: rest) =
        (form ← Bubble.parse f0;
         Ok {| Key.form := form; Key.questions := [] |})).
Proof.
  split.
  - intros f0 f1 f2 f3 questions extra Hint.
    rewrite (Scantron_parse_slice _ _ _ _ _ _ Hint).
    rewrite (Key_parse_slice _ _ _ _ _ _ Hint).
    rewrite slice_questions by lia.
    rewrite Nat2Z.id, take_app_length. split; reflexivity.
  - intros f0 f1 f2 f3 rest n Hint Hn.
    rewrite (Scantron_parse_slice _ _ _ _ _ _ Hint).
    rewrite (Key_parse_slice _ _ _ _ _ _ Hint).
    rewrite slice_questions_negative by assumption.
    split; destruct (Bubble.parse f0); reflexivity.
Qed.

(** The first part of the theorem at a row that declares two questions and
    holds a third field after them. *)
Lemma parse_row_declared_count_witness :
  Scantron.parse
    ("B" :: "WANG AY" :: "12345678" :: "2" :: ["1"; "(2,3)"] ++ ["9"])%list =
    (form ← Bubble.parse "B";
     responses ← mapM Response.parse ["1"; "(2,3)"];
     Ok {| Scantron.student := Student.new "WANG AY" "12345678";
           Scantron.form := form;
           Scantron.responses := responses |}).
Proof.
  apply (proj1 parse_row_declared_count
           "B" "WANG AY" "12345678" "2" ["1"; "(2,3)"] ["9"]).
  reflexivity.
Defined.

(** ** The command: short rows, and one grade for each scantron row *)

Lemma short_row_raises {T} (row : list string)
    (with_key : Key.t -> result T) (with_scantron : Scantron.t -> result T) :
  (length row < 4)%nat →
  (is_key ← Godel.is_key_row row;
   if is_key : bool then key ← Key.parse row; with_key key
   else scantron ← Scantron.parse row; with_scantron scantron)
  = Raise IndexError.
Proof.
  intros Hlen.
  destruct row as [|f0 [|f1 [|f2 [|f3 rest]]]];
    [reflexivity|reflexivity| | |cbn [length] in Hlen; lia].
  - unfold Godel.is_key_row.
    change (Seq.getitem [f0; f1] 1) with (Ok (T := string) f1).
    cbn [mbind result_bind]. destruct (String.eqb f1 "KEY"); reflexivity.
  - unfold Godel.is_key_row.
    change (Seq.getitem [f0; f1; f2] 1) with (Ok (T := string) f1).
    change (Seq.getitem [f0; f1; f2] 2) with (Ok (T := string) f2).
    cbn [mbind result_bind].
    destruct (String.eqb f1 "KEY"); [destruct (String.eqb f2 "")|];
      reflexivity.
Qed.

Lemma separate_app (rows1 rows2 : list (list string)) :
  ∀ (keys : list Key.t) (scantrons : list Scantron.t),
    Godel.separate (rows1 ++ rows2) keys scantrons =
      ('(keys', scantrons') ← Godel.separate rows1 keys scantrons;
       Godel.separate rows2 keys' scantrons').
Proof.
  induction rows1 as [|row rows1 IH]; intros keys scantrons.
  - reflexivity.
  - cbn [app Godel.separate].
    destruct (Godel.is_key_row row) as [[]|e]; cbn [mbind result_bind];
      [destruct (Key.parse row)|destruct (Scantron.parse row)|];
      cbn [mbind result_bind]; try reflexivity; apply IH.
Qed.

Lemma separate_short (rows : list (list string)) :
  Exists (fun row => (length row < 4)%nat) rows →
  ∀ (keys : list Key.t) (scantrons : list Scantron.t),
    ∃ e, Godel.separate rows keys scantrons = Raise e.
Proof.
  induction 1 as [row rows Hrow|row rows Hrows IH]; intros keys scantrons;
    cbn [Godel.separate].
  - rewrite short_row_raises by exact Hrow. eexists; reflexivity.
  - destruct (Godel.is_key_row row) as [[]|e]; cbn [mbind result_bind];
      [destruct (Key.parse row)|destruct (Scantron.parse row)|];
      cbn [mbind result_bind]; try (eexists; reflexivity); apply IH.
Qed.

(** X15. A row of fewer than four fields anywhere in the file, as an empty
    line gives, makes the command raise before any grader is built and
    without a single grade; the exception is [IndexError] when the rows
    before it can be read. *)
Theorem Godel_grade_short_row :
  (∀ (st : Grader.class_state) (rows : list (list string)),
      Exists (fun row => (length row < 4)%nat) rows →
      ∃ e, Godel.grade st rows = (st, Raise e)) ∧
  (∀ (st : Grader.class_state) (before after : list (list string))
     (row : list string) (keys : list Key.t) (scantrons : list Scantron.t),
      (length row < 4)%nat →
      Godel.separate before [] [] = Ok (keys, scantrons) →
      Godel.grade st (before ++ row :: after)%list = (st, Raise IndexError)).
Proof.
  split.
  - intros st rows Hshort. unfold Godel.grade.
    destruct (separate_short rows Hshort [] []) as [e ->]. eauto.
  - intros st before after row keys scantrons Hrow Hbefore.
    unfold Godel.grade. rewrite separate_app, Hbefore.
    cbn [mbind result_bind Godel.separate].
    rewrite short_row_raises by exact Hrow. reflexivity.
Qed.

(** The second part of the theorem at a key row, an empty row and a scantron
    row. *)
Lemma Godel_grade_short_row_witness :
  Godel.grade Grader.initial
    ([["A"; "KEY"; ""; "1"; "B"]] ++ [] :: [["A"; "DOE JANE"; "1"; "1"; "B"]])
  = (Grader.initial, Raise IndexError).
Proof.
  apply (proj2 Godel_grade_short_row Grader.initial
           [["A"; "KEY"; ""; "1"; "B"]] [["A"; "DOE JANE"; "1"; "1"; "B"]] []
           [{| Key.form := Bubble.A;
               Key.questions :=
                 [{| Rubric.items :=
                       [{| RubricItem.correct_response :=
                             {| Response.bubbles := [Bubble.B] |};
                           RubricItem.partial_credit := false |}];
                     Rubric.points := 1;
                     Rubric.extra_credit := false |}] |}] []).
  - simpl. lia.
  - vm_compute. reflexivity.
Defined.

(** The scantron rows: the rows that the loop does not take for key rows. *)
Lemma separate_counts (rows : list (list string)) :
  ∀ (keys keys' : list Key.t) (scantrons scantrons' : list Scantron.t),
    Godel.separate rows keys scantrons = Ok (keys', scantrons') →
    length keys' =
      (length keys
       + length (filter (fun row => taken_as row true = true) rows))%nat ∧
    length scantrons' =
      (length scantrons
       + length (filter (fun row => taken_as row false = true) rows))%nat.
Proof.
  induction rows as [|row rows IH]; intros keys keys' scantrons scantrons';
    cbn [Godel.separate].
  - intros [= <- <-]. simpl. lia.
  - destruct (Godel.is_key_row row) as [[]|e] eqn:Hrow;
      cbn [mbind result_bind]; [| |discriminate].
    + destruct (Key.parse row) as [key|e]; [|discriminate].
      cbn [mbind result_bind]. intros Hs. apply IH in Hs as [Hk Hs].
      rewrite filter_cons_True by (unfold taken_as; rewrite Hrow; reflexivity).
      rewrite filter_cons_False
        by (unfold taken_as; rewrite Hrow; discriminate).
      rewrite length_app in Hk. simpl in *. lia.
    + destruct (Scantron.parse row) as [scantron|e]; [|discriminate].
      cbn [mbind result_bind]. intros Hs. apply IH in Hs as [Hk Hs].
      rewrite filter_cons_False
        by (unfold taken_as; rewrite Hrow; discriminate).
      rewrite filter_cons_True by (unfold taken_as; rewrite Hrow; reflexivity).
      rewrite length_app in Hs. simpl in *. lia.
Qed.

(** X16. When the command returns grades, there is one grade for each row
    that is no key row, wherever the key rows stand in the file; a row is a
    key row when its field 1 is "KEY" and its field 2 is empty. *)
Theorem Godel_grade_one_per_scantron_row
    (st st' : Grader.class_state) (rows : list (list string))
    (grades : list ScantronGrade.t) :
  Godel.grade st rows = (st', Ok grades) →
  length grades =
    length (filter (fun row => taken_as row false = true) rows).
Proof.
  unfold Godel.grade.
  destruct (Godel.separate rows [] []) as [[keys scantrons]|e] eqn:Hs;
    [|discriminate].
  destruct (Grader.new st keys) as [st'' [grader|e]]; [|discriminate].
  intros [= <- Hall]. apply mapM_result_length in Hall.
  apply separate_counts in Hs as [_ Hs]. simpl in Hs. lia.
Qed.

(** The theorem at a file whose key row stands between two scantron rows. *)
Lemma Godel_grade_one_per_scantron_row_witness :
  length
    [{| ScantronGrade.student := Student.new "DOE JANE" "12345678";
        ScantronGrade.form := Bubble.A;
        ScantronGrade.points := Num.Float 1;
        ScantronGrade.out_of := Num.Float 1 |};
     {| ScantronGrade.student := Student.new "ROE RICHARD" "87654321";
        ScantronGrade.form := Bubble.A;
        ScantronGrade.points := Num.Float 0;
        ScantronGrade.out_of := Num.Float 1 |}] =
  length
    (filter (fun row => taken_as row false = true)
       [["A"; "DOE JANE"; "12345678"; "1"; "B"];
        ["A"; "KEY"; ""; "1"; "B"];
        ["A"; "ROE RICHARD"; "87654321"; "1"; "C"]]).
Proof.
  apply (Godel_grade_one_per_scantron_row Grader.initial
           {| Grader._keys :=
                [{| Key.form := Bubble.A;
                    Key.questions :=
                      [{| Rubric.items :=
                            [{| RubricItem.correct_response :=
                                  {| Response.bubbles := [Bubble.B] |};
                                RubricItem.partial_credit := false |}];
                          Rubric.points := 1;
                          Rubric.extra_credit := false |}] |}] |}).
  vm_compute. reflexivity.
Defined.

(** ** When a grader can be constructed *)

Lemma add_keys_fresh (keys : list Key.t) :
  ∀ (st : Grader.class_state) (self : Grader.t),
    NoDup (forms keys) →
    (∀ form, form ∈ forms keys → form ∉ forms (Grader._keys st)) →
    Grader.add_keys st self keys =
      ({| Grader._keys := Grader._keys st ++ keys |}, Ok tt).
Proof.
  induction keys as [|k keys IH]; intros st self Hnd Hfresh.
  - cbn [Grader.add_keys]. rewrite app_nil_r. destruct st; reflexivity.
  - unfold forms in Hnd. cbn [map] in Hnd.
    apply NoDup_cons in Hnd as [Hk Hnd]. cbn [Grader.add_keys].
    destruct (add_key_cases st self k) as [[Hin _]|[_ ->]].
    + exfalso. apply (Hfresh (Key.form k)); [left|exact Hin].
    + rewrite IH.
      * cbn [Grader._keys]. rewrite <- app_assoc. reflexivity.
      * exact Hnd.
      * intros form Hform. cbn [Grader._keys]. unfold forms.
        rewrite map_app. intros Hin. apply elem_of_app in Hin as [Hin|Hin].
        -- apply (Hfresh form); [right; exact Hform|exact Hin].
        -- apply list_elem_of_singleton in Hin. subst form.
           contradiction.
Qed.

(** X17. [Grader(keys)] succeeds exactly when the forms of the given keys
    are distinct and none of them is the form of a key that an earlier
    grader put in the key list; the key list is then the earlier keys
    followed by the given ones. *)
Theorem Grader_new_succeeds_iff
    (st st' : Grader.class_state) (keys : list Key.t) (grader : Grader.t) :
  Grader.new st keys = (st', Ok grader) ↔
    NoDup (forms keys) ∧
    (∀ form, form ∈ forms keys → form ∉ forms (Grader._keys st)) ∧
    st' = {| Grader._keys := Grader._keys st ++ keys |}.
Proof.
  unfold Grader.new. split.
  - destruct (Grader.add_keys st Grader.mk keys) as [st'' [u|e]] eqn:Hadd;
      [|discriminate].
    intros [= <- _].
    assert (Hnd : NoDup (forms keys)).
    { destruct (decide (NoDup (forms keys))) as [Hnd|Hdup]; [exact Hnd|].
      destruct (add_keys_duplicate keys st Grader.mk Hdup) as [st3 H3].
      rewrite H3 in Hadd. discriminate. }
    assert (Hfresh : ∀ form,
               form ∈ forms keys → form ∉ forms (Grader._keys st)).
    { intros form Hform Hin. unfold forms in Hform.
      apply list_elem_of_fmap in Hform as (key & -> & Hkey).
      destruct (add_keys_known_form keys st Grader.mk key Hkey Hin)
        as [st3 H3].
      rewrite H3 in Hadd. discriminate. }
    split; [exact Hnd|]. split; [exact Hfresh|].
    rewrite (add_keys_fresh keys st Grader.mk Hnd Hfresh) in Hadd.
    congruence.
  - intros (Hnd & Hfresh & ->).
    rewrite (add_keys_fresh keys st Grader.mk Hnd Hfresh).
    destruct grader. reflexivity.
Qed.

(** ** The whitespace around a question count *)

(** [int] does not skip the separators U+001C..U+001F, which [strip] and
    [split] take for whitespace, and it skips U+0085 and U+00A0. *)
Example int_literal_space :
  Str.int (String (ascii_of_nat 28) "3") = Raise ValueError ∧
  Str.int (String (ascii_of_nat 31) "3") = Raise ValueError ∧
  Str.int (String (ascii_of_nat 133) (String "3" (Str.of_char (ascii_of_nat 160))))
  = Ok 3 ∧
  Str.int (String (ascii_of_nat 9) "-1_0 ") = Ok (-10) ∧
  Str.strip (String (ascii_of_nat 28) "3") = "3".
Proof. repeat split; vm_compute; reflexivity. Qed.

(** A count field that starts with U+001C is no integer: the row is refused
    with [ValueError], by the parsers and by the command. *)
Example parse_row_separator_in_count :
  Scantron.parse
    ["A"; "DOE JANE"; "12345678"; String (ascii_of_nat 28) "3"; "1"]
  = Raise ValueError ∧
  Key.parse ["A"; "KEY"; ""; String (ascii_of_nat 28) "1"; "B"; "junk"]
  = Raise ValueError ∧
  Godel.grade Grader.initial
    [["A"; "KEY"; ""; String (ascii_of_nat 28) "1"; "B"]; []]
  = (Grader.initial, Raise ValueError).
Proof. repeat split; vm_compute; reflexivity. Qed.
